(** * A-scab: boolean run analysis and wet-period detection

    A shallow embedding of [ascab/utils/generic.py] and of the series
    analysis of [ascab/utils/weather.py], followed by the properties of
    these functions.

    Conventions of the embedding.
    - A numpy boolean array is a [list bool]; a numpy integer array is a
      [list Z]; positions are [nat] and are read with stdpp's lookup [!!].
    - Python integers are [Z].  Slice bounds are integers and follow
      numpy's rule for negative and out-of-range bounds, see [slice_bound].
    - Measurements (precipitation, vapour pressure deficit, temperature,
      relative humidity) are exact rationals [Q]; rounding and NaN inputs of
      the floating-point arrays are outside the model.  The one NaN the
      code can produce from NaN-free data, the mean of an empty slice, is
      modelled by [np.NaN].
    - A Python [str] is a [string] of ASCII characters; text outside ASCII
      is outside the model. *)

From Stdlib Require Import ZArith QArith Ascii DecimalString DecimalN DecimalPos.
From stdpp Require Import base decidable option list numbers sorting strings.

Local Open Scope Z_scope.

(** ** numpy helpers shared by both source files *)

Module np.

(** [np.zeros_like(arr, dtype=int)] *)
Definition zeros_like {A : Type} (arr : list A) : list Z :=
  replicate (length arr) 0.

(** Normalisation of one bound [k] of a slice over an array of length [n]:
    a negative bound counts from the end, and the result is clamped to
    [0..n]. *)
Definition slice_bound (n k : Z) : Z :=
  if bool_decide (k < 0) then Z.max (k + n) 0 else Z.min k n.

(** [a[start:stop] = v] with a scalar [v]; an omitted bound is [None]. *)
Definition set_slice (start stop : option Z) (v : Z) (a : list Z) : list Z :=
  let n := Z.of_nat (length a) in
  let lo := from_option (slice_bound n) 0 start in
  let hi := from_option (slice_bound n) n stop in
  imap (fun j x => if bool_decide (lo <= Z.of_nat j < hi) then v else x) a.

(** [a[:stop]] for a non-negative [stop] *)
Definition prefix {A : Type} (stop : nat) (a : list A) : list A := take stop a.

(** [np.sum] of a boolean array: the number of [True] entries *)
Definition sum_bool (a : list bool) : Z :=
  foldr (fun b acc => (if b : bool then 1 else 0) + acc) 0 a.

(** [enumerate(array)] *)
Definition enumerate {A : Type} (a : list A) : list (nat * A) := imap pair a.

(** [np.where(mask)[0]]: the positions of the [True] entries, ascending.
    [where_from k] numbers the first entry [k]. *)
Fixpoint where_from (k : nat) (mask : list bool) : list nat :=
  match mask with
  | [] => []
  | b :: rest =>
      if b then k :: where_from (S k) rest else where_from (S k) rest
  end.

Definition where_ (mask : list bool) : list nat := where_from 0 mask.

(** [np.any] *)
Definition any (a : list bool) : bool := existsb id a.

(** A float result that may be NaN. *)
Inductive float64 : Type :=
| Finite (q : Q)
| NaN.

(** Sum of a float array. *)
Definition sum (a : list Q) : Q := foldr Qplus 0%Q a.

(** [np.mean]; of an empty array it is NaN.  On NaN-free data pandas'
    [Series.mean] is the same function. *)
Definition mean (a : list Q) : float64 :=
  match a with
  | [] => NaN
  | _ :: _ => Finite (sum a / inject_Z (Z.of_nat (length a)))%Q
  end.

End np.

(** ** Python built-ins used by [parse_date] *)

Module py.

Inductive exn : Type := ValueError.

Definition is_digit (c : ascii) : bool :=
  (48 <=? nat_of_ascii c)%nat && (nat_of_ascii c <=? 57)%nat.

(** [s.isdigit()]: [s] is not empty and all its characters are digits. *)
Definition str_isdigit (s : string) : bool :=
  match s with
  | EmptyString => false
  | String _ _ => forallb is_digit (String.list_ascii_of_string s)
  end.

(** [sys.get_int_max_str_digits()], the default limit on the number of
    digits of a string that [int] converts. *)
Definition int_max_str_digits : nat := 4300.

(** [int(s)] for a string of digits: its decimal value, read by the
    Standard Library's parser of decimal numbers; longer strings than the
    limit are refused. *)
Definition int_of_str (s : string) : exn + Z :=
  match NilZero.uint_of_string s with
  | Some d =>
      if (int_max_str_digits <? String.length s)%nat then inl ValueError
      else inr (Z.of_uint d)
  | None => inl ValueError
  end.

(** [str(n)] for [n >= 0]. *)
Definition str_of_nonneg (n : Z) : string :=
  NilZero.string_of_uint (N.to_uint (Z.to_N n)).

End py.

(** ** [datetime.datetime.strptime(s, "%B %d")] and [timetuple().tm_yday]

    Modelled after CPython's [_strptime] with English month names.  The
    format becomes a pattern that is matched, ignoring case, at the start
    of the text: a full month name, one or more white-space characters
    (taken greedily), and a day as the first alternative that matches of
    [3[0-1]], [[1-2]\d], [0[1-9]], [[1-9]]; text left over is an error.
    The year is 1900, so the date must exist in a year that is not a leap
    year. *)

Module datetime.

Definition lower (c : ascii) : ascii :=
  let n := nat_of_ascii c in
  if (65 <=? n)%nat && (n <=? 90)%nat then ascii_of_nat (n + 32) else c.

(** [s] starts with [p], ignoring case; the result is the rest of [s]. *)
Fixpoint strip_prefix (p s : string) : option string :=
  match p with
  | EmptyString => Some s
  | String a p' =>
      match s with
      | EmptyString => None
      | String b s' =>
          if Ascii.eqb (lower a) (lower b) then strip_prefix p' s' else None
      end
  end.

Definition month_names : list string :=
  ["January"; "February"; "March"; "April"; "May"; "June"; "July";
   "August"; "September"; "October"; "November"; "December"]%string.

(** The month, counted from 1, whose name starts the text, with the rest. *)
Fixpoint match_month (month : nat) (names : list string) (s : string)
  : option (nat * string) :=
  match names with
  | [] => None
  | name :: names' =>
      match strip_prefix name s with
      | Some rest => Some (month, rest)
      | None => match_month (S month) names' s
      end
  end.

(** The characters that [\s] matches, among ASCII. *)
Definition is_space (c : ascii) : bool :=
  let n := nat_of_ascii c in
  ((9 <=? n)%nat && (n <=? 13)%nat) || ((28 <=? n)%nat && (n <=? 32)%nat).

Fixpoint skip_spaces (s : string) : string :=
  match s with
  | String c s' => if is_space c then skip_spaces s' else s
  | EmptyString => s
  end.

Definition digit_value (c : ascii) : Z := Z.of_nat (nat_of_ascii c) - 48.

Definition in_range (lo hi : nat) (c : ascii) : bool :=
  (lo <=? nat_of_ascii c)%nat && (nat_of_ascii c <=? hi)%nat.

(** The day at the start of the text, with the rest. *)
Definition match_day (s : string) : option (Z * string) :=
  match s with
  | EmptyString => None
  | String c1 rest =>
      let two :=
        match rest with
        | String c2 rest2 =>
            if in_range 51 51 c1 && in_range 48 49 c2 then
              Some (30 + digit_value c2, rest2)
            else if in_range 49 50 c1 && in_range 48 57 c2 then
              Some (10 * digit_value c1 + digit_value c2, rest2)
            else if in_range 48 48 c1 && in_range 49 57 c2 then
              Some (digit_value c2, rest2)
            else None
        | EmptyString => None
        end in
      match two with
      | Some r => Some r
      | None => if in_range 49 57 c1 then Some (digit_value c1, rest) else None
      end
  end.

(** The days of the months of 1900. *)
Definition days_in_month : list Z :=
  [31; 28; 31; 30; 31; 30; 31; 31; 30; 31; 30; 31].

Definition sum_list (l : list Z) : Z := foldr Z.add 0 l.

(** [datetime(1900, month, day).timetuple().tm_yday]; the constructor
    refuses a day that the month does not have. *)
Definition yday_1900 (month : nat) (day : Z) : py.exn + Z :=
  match days_in_month !! (month - 1)%nat with
  | Some n =>
      if bool_decide (1 <= day <= n) then
        inr (sum_list (take (month - 1) days_in_month) + day)
      else inl py.ValueError
  | None => inl py.ValueError
  end.

(** [datetime.strptime(s, "%B %d").timetuple().tm_yday] *)
Definition strptime_B_d_yday (s : string) : py.exn + Z :=
  match match_month 1 month_names s with
  | Some (month, String c rest) =>
      if is_space c then
        match match_day (skip_spaces rest) with
        | Some (day, EmptyString) => yday_1900 month day
        | _ => inl py.ValueError
        end
      else inl py.ValueError
  | _ => inl py.ValueError
  end.

End datetime.

(** ** [ascab/utils/generic.py] *)

Module generic.

(** State of the loop of [items_since_last_true]. *)
Record since_state := SinceState {
  last_true_index : Z;
  since_result : list Z
}.

Definition items_since_last_true_body (st : since_state) (iv : nat * bool)
  : since_state :=
  let '(i, value) := iv in
  let last := if value then Z.of_nat i else last_true_index st in
  SinceState last (<[i := Z.of_nat i - last]> (since_result st)).

Definition items_since_last_true (array : list bool) : list Z :=
  since_result
    (foldl items_since_last_true_body
           (SinceState (-1) (np.zeros_like array))
           (np.enumerate array)).

(** State of the loop of [fill_gaps]. *)
Record gaps_state := GapsState {
  false_series_lengths : list Z;
  current_length : Z
}.

Definition fill_gaps_body (arr : list bool) (st : gaps_state) (i : nat)
  : gaps_state :=
  if bool_decide (arr !! i = Some false) then
    GapsState (false_series_lengths st) (current_length st + 1)
  else
    GapsState
      (np.set_slice (Some (Z.of_nat i - current_length st)) (Some (Z.of_nat i))
                    (current_length st) (false_series_lengths st))
      0.

(** The lengths array as it stands just before the final comparison. *)
Definition fill_gaps_lengths (arr : list bool) : list Z :=
  let st := foldl (fill_gaps_body arr)
                  (GapsState (np.zeros_like arr) 0)
                  (seq 0 (length arr)) in
  if bool_decide (current_length st > 0) then
    np.set_slice (Some (- current_length st)) None
                 (current_length st) (false_series_lengths st)
  else false_series_lengths st.

Definition fill_gaps (arr : list bool) (max_gap : Z) : list bool :=
  (fun len => bool_decide (len <= max_gap)) <$> fill_gaps_lengths arr.

(** The argument of [parse_date]: [None], an integer or a string. *)
Inductive date_input : Type :=
| DateNone
| DateInt (n : Z)
| DateStr (s : string).

Definition parse_date (input_date : date_input) : py.exn + option Z :=
  match input_date with
  | DateNone => inr None
  | DateInt n => inr (Some n)
  | DateStr s =>
      if py.str_isdigit s then
        match py.int_of_str s with
        | inr n => inr (Some n)
        | inl e => inl e
        end
      else
        match datetime.strptime_B_d_yday s with
        | inr yday => inr (Some yday)
        | inl e => inl e
        end
  end.

End generic.

(** ** [scipy.ndimage.label] on a one-dimensional boolean array

    Runs of adjacent [True] entries are numbered 1, 2, ... from left to
    right; [False] entries get 0.  The second component is the number of
    runs. *)

Module ndimage.

Fixpoint label_from (inside : bool) (num : Z) (input : list bool)
  : list Z * Z :=
  match input with
  | [] => ([], num)
  | true :: rest =>
      let num' := if inside then num else num + 1 in
      let '(labels, total) := label_from true num' rest in
      (num' :: labels, total)
  | false :: rest =>
      let '(labels, total) := label_from false num rest in
      (0 :: labels, total)
  end.

Definition label (input : list bool) : list Z * Z := label_from false 0 input.

End ndimage.

(** ** [ascab/utils/weather.py] *)

Module weather.

(** One row of the hourly weather table.  [date] is the index entry, the
    local time counted in hours; calendar day [d] is the hours
    [24 d .. 24 d + 23]. *)
Record observation := Observation {
  date : Z;
  precipitation : Q;
  vapour_pressure_deficit : Q;
  temperature_2m : Q;
  relative_humidity_2m : Q
}.

Abbreviation DataFrame := (list observation).

(** Exceptions.  [KeyError] is what the day lookup of pandas raises;
    [TypeError] and [AttributeError] are raised when the lookup gives a
    single row instead of a frame.  [MissingDataError] is the name used by
    the specification; no function of the source raises it. *)
Inductive exn : Type :=
| KeyError (key : Z)
| TypeError
| AttributeError
| MissingDataError.

Definition Qlt_bool (x y : Q) : bool := negb (Qle_bool y x).

Definition is_wet (precipitation vapour_pressure_deficit : Q) : bool :=
  let precipitation_threshold : Q := 0%Q in
  let vapour_pressure_deficit_threshold : Q := 25 # 100 in
  Qlt_bool precipitation_threshold precipitation
  || Qlt_bool vapour_pressure_deficit vapour_pressure_deficit_threshold.

(** The per-row application
    [df.apply(lambda row: is_wet(row[...], row[...]), axis=1)]. *)
Definition wet_series (df : DataFrame) : list bool :=
  (fun row => is_wet (precipitation row) (vapour_pressure_deficit row)) <$> df.

Definition compute_leaf_wetness_duration (df_weather_day : DataFrame) : Z :=
  np.sum_bool (wet_series df_weather_day).

Definition default_threshold : Q := 2 # 10.
Definition default_max_gap : Z := 2.

Definition is_rain_event (df_weather_day : DataFrame)
           (threshold : Q) (max_gap : Z) : list bool :=
  let precipitation := precipitation <$> df_weather_day in
  let rain := (fun p => Qle_bool threshold p) <$> precipitation in
  generic.fill_gaps rain max_gap.

Definition compute_duration_and_temperature_wet_period
           (df_weather_infection : DataFrame) : Z * option np.float64 :=
  let wet := wet_series df_weather_infection in
  let temperature := temperature_2m <$> df_weather_infection in
  let wet_filled := generic.fill_gaps wet 4 in
  let '(wet_periods, num_periods) := ndimage.label wet_filled in
  let indices :=
    np.where_ (zip_with (fun l w => bool_decide (l = 2) && Bool.eqb w true)
                        wet_periods wet) in
  match list.last indices with
  | Some last_index =>
      let wet_hours := np.sum_bool (np.prefix (last_index + 1) wet) in
      let average_temperature := np.mean (np.prefix (last_index + 1) temperature) in
      (wet_hours, Some average_temperature)
  | None => (0, None)
  end.

(** *** The day lookup [df_weather.loc[day.strftime("%Y-%m-%d")]]

    A requested day is its day number.  What pandas does with the day
    string depends on the resolution of the index, which it reads off the
    timestamps: day when all of them are at midnight (so also when there is
    none), hour otherwise.
    - On an index of hour resolution the day string is a partial date:
      pandas turns it into the bounds of the day and, on a monotonic index,
      raises [KeyError] when both bounds lie before the first or after the
      last entry and otherwise returns the slice found by two binary
      searches; on a non-monotonic index it returns the rows inside the
      bounds.  The result is a frame, possibly without rows.
    - On an index of day resolution the day string is looked up exactly, as
      the midnight of the day: [KeyError] when no entry equals it, the row
      itself (a Series) when one entry does, the frame of the matching rows
      when several do. *)

(** The result of a lookup: a frame or a single row. *)
Inductive loc_result : Type :=
| Frame (rows : DataFrame)
| Row (row : observation).

Definition day_bounds (day : Z) : Z * Z := (24 * day, 24 * day + 23).

Fixpoint is_monotonic_increasing (index : list Z) : bool :=
  match index with
  | [] => true
  | t :: rest =>
      match rest with
      | [] => true
      | t' :: _ => bool_decide (t <= t') && is_monotonic_increasing rest
      end
  end.

(** The index has day resolution: every timestamp is at midnight. *)
Definition is_day_resolution (index : list Z) : bool :=
  forallb (fun t => bool_decide (t `mod` 24 = 0)) index.

(** [searchsorted(x, side="left")] and [side="right"] on a sorted index:
    the number of entries below [x], resp. not above [x]. *)
Definition searchsorted_left (index : list Z) (x : Z) : nat :=
  length (filter (fun t => t < x) index).
Definition searchsorted_right (index : list Z) (x : Z) : nat :=
  length (filter (fun t => t <= x) index).

(** The lookup of a partial date. *)
Definition partial_date_slice (day : Z) (df_weather : DataFrame)
  : exn + DataFrame :=
  let index := date <$> df_weather in
  let '(t1, t2) := day_bounds day in
  if is_monotonic_increasing index then
    match head index, list.last index with
    | Some first, Some final =>
        if bool_decide ((t1 < first /\ t2 < first) \/ (t1 > final /\ t2 > final))
        then inl (KeyError day)
        else
          let left := searchsorted_left index t1 in
          let right := searchsorted_right index t2 in
          inr (take (right - left) (drop left df_weather))
    | _, _ => inr []
    end
  else
    inr (filter (fun row => t1 <= date row /\ date row <= t2) df_weather).

(** The exact lookup of the midnight of the day. *)
Definition exact_lookup (day : Z) (df_weather : DataFrame) : exn + loc_result :=
  let found := filter (fun row => date row = 24 * day) df_weather in
  match found with
  | [] => inl (KeyError day)
  | [row] => inr (Row row)
  | _ :: _ :: _ => inr (Frame found)
  end.

Definition loc_day (day : Z) (df_weather : DataFrame) : exn + loc_result :=
  if is_day_resolution (date <$> df_weather) then exact_lookup day df_weather
  else
    match partial_date_slice day df_weather with
    | inl e => inl e
    | inr df_weather_day => inr (Frame df_weather_day)
    end.

(** One row of the daily summary table. *)
Record summary_row := SummaryRow {
  Date : Z;
  LeafWetness : Q;
  HasRain : Q;
  Precipitation : Q;
  Temperature : np.float64;
  HumidDuration : Z
}.

Definition summarize_day (day : Z) (df_weather_day : DataFrame) : summary_row :=
  let leaf_wetness := inject_Z (compute_leaf_wetness_duration df_weather_day) in
  let has_rain_event : Q :=
    if np.any (is_rain_event df_weather_day default_threshold default_max_gap)
    then 1%Q else 0%Q in
  let total_precipitation := np.sum (precipitation <$> df_weather_day) in
  let avg_temperature := np.mean (temperature_2m <$> df_weather_day) in
  let hours_humid :=
    Z.of_nat (length (filter (fun row => Qlt_bool (85 # 1) (relative_humidity_2m row))
                             df_weather_day)) in
  SummaryRow day leaf_wetness has_rain_event total_precipitation
             avg_temperature hours_humid.

(** The loop of [WeatherSummary.__init__]; [rows] are the rows appended so
    far.  An exception ends the loop and nothing is returned.  When the
    lookup gives a single row, [compute_leaf_wetness_duration] calls
    [apply(..., axis=1)] on a Series, which hands [axis] on to the lambda:
    [TypeError]. *)
Fixpoint WeatherSummary_loop (dates : list Z) (df_weather : DataFrame)
         (rows : list summary_row) : exn + list summary_row :=
  match dates with
  | [] => inr rows
  | day :: rest =>
      match loc_day day df_weather with
      | inl e => inl e
      | inr (Row _) => inl TypeError
      | inr (Frame df_weather_day) =>
          WeatherSummary_loop rest df_weather
                              (rows ++ [summarize_day day df_weather_day])
      end
  end.

Definition WeatherSummary (dates : list Z) (df_weather : DataFrame)
  : exn + list summary_row :=
  WeatherSummary_loop dates df_weather [].

Definition summarize_weather (dates : list Z) (df_weather : DataFrame)
  : exn + list summary_row :=
  WeatherSummary dates df_weather.

(** One row of the hourly rain table. *)
Record rain_row := RainRow {
  Hourly_Date : Z;
  Hourly_Precipitation : Q;
  Hourly_Rain_Event : bool
}.

(** [zip(df_weather_day.index, df_weather_day["precipitation"], rain_event)] *)
Definition zip3 (ts : list Z) (ps : list Q) (es : list bool) : list rain_row :=
  zip_with (fun t pe => RainRow t pe.1 pe.2) ts (zip ps es).

(** The loop of [summarize_rain].  When the lookup gives a single row,
    [df_weather_day["precipitation"]] in [is_rain_event] is a number, which
    has no [to_numpy]: [AttributeError]. *)
Fixpoint summarize_rain_loop (dates : list Z) (df_weather : DataFrame)
         (hourly_data : list rain_row) : exn + list rain_row :=
  match dates with
  | [] => inr hourly_data
  | day :: rest =>
      match loc_day day df_weather with
      | inl e => inl e
      | inr (Row _) => inl AttributeError
      | inr (Frame df_weather_day) =>
          let rain_event :=
            is_rain_event df_weather_day default_threshold default_max_gap in
          summarize_rain_loop rest df_weather
            (hourly_data ++ zip3 (date <$> df_weather_day)
                                 (precipitation <$> df_weather_day)
                                 rain_event)
      end
  end.

Definition summarize_rain (dates : list Z) (df_weather : DataFrame)
  : exn + list rain_row :=
  summarize_rain_loop dates df_weather [].

End weather.

(** * Specification predicates and sample data *)

Module generic_spec.
Import generic.

(** [j] is the position of the last [True] among the first [k] entries of
    [s], or [-1] when there is none. *)
Definition last_true_before (s : list bool) (k : nat) (j : Z) : Prop :=
  -1 <= j < Z.of_nat k /\
  (0 <= j -> s !! Z.to_nat j = Some true) /\
  (forall m : nat, j < Z.of_nat m < Z.of_nat k -> s !! m = Some false).

(** Invariant of the loop after the entries [0 .. k-1] were visited. *)
Definition since_inv (s : list bool) (k : nat) (st : since_state) : Prop :=
  length (since_result st) = length s /\
  last_true_before s k (last_true_index st) /\
  forall i : nat, (i < k)%nat ->
    exists j, last_true_before s (S i) j /\
              since_result st !! i = Some (Z.of_nat i - j).

(** [false_run s a b]: the positions [a .. b-1] are a maximal run of
    [False] in [s].  The run may start at position 0 and may reach the end
    of [s]. *)
Definition false_run (s : list bool) (a b : nat) : Prop :=
  (a < b)%nat /\
  (forall j : nat, (a <= j < b)%nat -> s !! j = Some false) /\
  (forall a' : nat, S a' = a -> s !! a' = Some true) /\
  s !! b <> Some false.

(** [run_length s i len]: [len] is the length of the maximal run of
    [False] that contains position [i], and 0 if [s] is [True] there. *)
Definition run_length (s : list bool) (i : nat) (len : Z) : Prop :=
  (s !! i = Some true /\ len = 0) \/
  (exists a b : nat, false_run s a b /\ (a <= i < b)%nat /\
                     len = Z.of_nat b - Z.of_nat a).

(** Invariant of the loop after the positions [0 .. k-1] were visited:
    the open run of [False] is the last [c] positions, every position
    before it holds its final value, and the rest is still 0. *)
Definition gaps_inv (s : list bool) (k : nat) (st : gaps_state) : Prop :=
  exists c : nat,
    current_length st = Z.of_nat c /\ (c <= k)%nat /\
    length (false_series_lengths st) = length s /\
    (forall j : nat, (k - c <= j < k)%nat -> s !! j = Some false) /\
    (forall a' : nat, S a' = (k - c)%nat -> s !! a' = Some true) /\
    (forall j : nat, (j < k - c)%nat ->
       exists len, false_series_lengths st !! j = Some len /\ run_length s j len) /\
    (forall j : nat, (k - c <= j < length s)%nat ->
       false_series_lengths st !! j = Some 0).

(** The text of a date: the name of month [month], a space, the day. *)
Definition date_text (month : nat) (day : Z) : option string :=
  (fun name => name +:+ " " +:+ py.str_of_nonneg day)
    <$> datetime.month_names !! (month - 1)%nat.

(** The day of the year of day [day] of month [month] in a year that is
    not a leap year. *)
Definition day_of_year (month : nat) (day : Z) : Z :=
  datetime.sum_list (take (month - 1) datetime.days_in_month) + day.

(** Whether [parse_date] reads the text of a date as its day of the year,
    for a day that the month has. *)
Definition date_text_parsed (month day : nat) : bool :=
  match datetime.days_in_month !! (month - 1)%nat with
  | Some n =>
      if bool_decide (Z.of_nat day <= n) then
        match date_text month (Z.of_nat day) with
        | Some text =>
            match parse_date (DateStr text) with
            | inr (Some v) => bool_decide (v = day_of_year month (Z.of_nat day))
            | _ => false
            end
        | None => false
        end
      else true
  | None => true
  end.

End generic_spec.

Module weather_spec.
Import weather.

(** The labels of the bridged wet periods of a window. *)
Definition wet_labels (df : DataFrame) : list Z :=
  (ndimage.label (generic.fill_gaps (wet_series df) 4)).1.

(** Position [i] is a wet hour of the second bridged wet period. *)
Definition second_period_wet (df : DataFrame) (i : nat) : Prop :=
  wet_labels df !! i = Some 2 /\ wet_series df !! i = Some true.

(** The rows of [df] whose hour falls on calendar day [day]. *)
Definition hours_of_day (df : DataFrame) (day : Z) : DataFrame :=
  filter (fun row => date row `div` 24 = day) df.

(** The rows of the hourly rain table that belong to one day. *)
Definition rain_rows_of_day (df : DataFrame) (day : Z) : list rain_row :=
  let window := hours_of_day df day in
  zip_with (fun row event => RainRow (date row) (precipitation row) event)
           window
           (is_rain_event window default_threshold default_max_gap).

(** The wet-hour pattern 8 wet, 2 dry, 6 wet, 8 dry, 12 wet. *)
Definition rossi_pattern : list bool :=
  replicate 8 true ++ replicate 2 false ++ replicate 6 true
  ++ replicate 8 false ++ replicate 12 true.

(** A window with that pattern: rain makes an hour wet, and the
    temperature is 10 in the first 16 hours and 20 afterwards. *)
Definition rossi_window : DataFrame :=
  imap (fun i (w : bool) =>
          Observation (Z.of_nat i) (if w then 1 else 0)%Q 1%Q
                      (if bool_decide (i < 16)%nat then 10 else 20)%Q 50%Q)
       rossi_pattern.

(** The precipitation of the example day, in mm per hour. *)
Definition rain_day_precipitation : list Q :=
  [0; 0; 3 # 10; 0; 0; 4 # 10; 0; 0; 0; 0]%Q.

(** A day with that precipitation; the other columns do not matter to
    [is_rain_event]. *)
Definition rain_day : DataFrame :=
  imap (fun i p => Observation (Z.of_nat i) p 1%Q 10%Q 50%Q)
       rain_day_precipitation.

(** Seven hours: one wet hour, five dry hours, one wet hour. *)
Definition two_period_window : DataFrame :=
  imap (fun i (w : bool) =>
          Observation (Z.of_nat i) (if w then 1 else 0)%Q 1%Q
                      (inject_Z (10 + Z.of_nat i)) 50%Q)
       [true; false; false; false; false; false; true].

(** Six hours: one wet hour, four dry hours, one wet hour. *)
Definition short_gap_window : DataFrame :=
  imap (fun i (w : bool) =>
          Observation (Z.of_nat i) (if w then 1 else 0)%Q 1%Q 10%Q 50%Q)
       [true; false; false; false; false; true].

(** Sixteen hours with one wet period only: 8 wet hours, then 8 dry. *)
Definition one_period_window : DataFrame :=
  imap (fun i (w : bool) =>
          Observation (Z.of_nat i) (if w then 1 else 0)%Q 1%Q 10%Q 50%Q)
       (replicate 8 true ++ replicate 8 false).

(** The hours 0 to 23 of day 0, all dry. *)
Definition sample_day : DataFrame :=
  (fun t => Observation (Z.of_nat t) 0%Q 1%Q 10%Q 50%Q) <$> seq 0 24.

(** Day 0 and day 2, without the hours of day 1. *)
Definition sample_days_0_2 : DataFrame :=
  sample_day
  ++ ((fun t => Observation (Z.of_nat t) 0%Q 1%Q 10%Q 50%Q) <$> seq 48 24).

(** The exceptions of [summarize_weather] and [summarize_rain] that belong
    together. *)
Definition same_failure (e e' : exn) : Prop :=
  (exists key, e = KeyError key /\ e' = KeyError key) \/
  (e = TypeError /\ e' = AttributeError).



End weather_spec.

(** * Properties of [ascab/utils/generic.py] *)

Module generic_facts.
Import generic generic_spec.

(** ** [items_since_last_true] *)

Lemma last_true_before_unique s k j j' :
  last_true_before s k j -> last_true_before s k j' -> j = j'.
Proof.
  intros (Hr & Ht & Hf) (Hr' & Ht' & Hf').
  destruct (Z.lt_trichotomy j j') as [Hlt | [Heq | Hgt]]; [| exact Heq |].
  - specialize (Ht' ltac:(lia)). specialize (Hf (Z.to_nat j') ltac:(lia)).
    congruence.
  - specialize (Ht ltac:(lia)). specialize (Hf' (Z.to_nat j) ltac:(lia)).
    congruence.
Qed.

Lemma since_inv_init s : since_inv s 0 (SinceState (-1) (np.zeros_like s)).
Proof.
  split; [apply length_replicate |].
  split; [| intros i Hi; lia].
  split; [simpl; lia |]. split; simpl; [lia |]. intros m Hm. lia.
Qed.

Lemma since_inv_step s k x st :
  s !! k = Some x ->
  since_inv s k st ->
  since_inv s (S k) (items_since_last_true_body st (k, x)).
Proof.
  intros Hk (Hlen & Hlast & Hres).
  assert (Hnew : last_true_before s (S k)
                   (if x then Z.of_nat k else last_true_index st)).
  { destruct Hlast as (Hr & Ht & Hf). destruct x.
    - split; [lia |]. split.
      + intros _. rewrite Nat2Z.id. exact Hk.
      + intros m Hm. lia.
    - split; [lia |]. split.
      + exact Ht.
      + intros m Hm. destruct (decide (m = k)) as [-> | Hne]; [exact Hk |].
        apply Hf. lia. }
  unfold since_inv, items_since_last_true_body. simpl.
  split; [by rewrite length_insert |].
  split; [exact Hnew |].
  intros i Hi. destruct (decide (i = k)) as [-> | Hne].
  - eexists. split; [exact Hnew |].
    apply list_lookup_insert_eq. rewrite Hlen. by eapply lookup_lt_Some.
  - destruct (Hres i ltac:(lia)) as (j & Hj & Hij).
    exists j. split; [exact Hj |].
    rewrite list_lookup_insert_ne by congruence. exact Hij.
Qed.

Lemma since_loop suf : forall pre st,
  since_inv (pre ++ suf) (length pre) st ->
  since_inv (pre ++ suf) (length (pre ++ suf))
    (foldl items_since_last_true_body st
           (imap (fun j => pair (length pre + j)%nat) suf)).
Proof.
  induction suf as [| x suf IH]; intros pre st Hinv.
  - simpl. by rewrite app_nil_r in *.
  - simpl. rewrite Nat.add_0_r.
    specialize (IH (pre ++ [x])).
    rewrite <- app_assoc in IH. simpl in IH.
    rewrite length_app in IH. simpl in IH.
    erewrite imap_ext; [apply IH |].
    + replace (length pre + 1)%nat with (S (length pre)) by lia.
      apply since_inv_step; [| exact Hinv].
      by rewrite lookup_app_r, Nat.sub_diag.
    + intros i y _. simpl. f_equal. lia.
Qed.

Lemma since_inv_final s :
  since_inv s (length s)
    (foldl items_since_last_true_body
           (SinceState (-1) (np.zeros_like s)) (np.enumerate s)).
Proof.
  pose proof (since_loop s [] (SinceState (-1) (np.zeros_like s))) as H.
  simpl in H. apply H. apply since_inv_init.
Qed.

Lemma since_lookup s i :
  (i < length s)%nat ->
  exists j, last_true_before s (S i) j /\
            items_since_last_true s !! i = Some (Z.of_nat i - j).
Proof.
  intros Hi. destruct (since_inv_final s) as (_ & _ & H). by apply H.
Qed.

(** C8.  [items_since_last_true] (the specification's
    [distance_since_last_true]) returns an array as long as its input
    that holds at position [i] the value [i - j], where [j] is the
    position of the last [True] at or before [i], and [i + 1] when there
    is none.  So the entry at position 0 is 1 or 0 according to [s[0]],
    the entry is 0 exactly where [s] is [True], and the entries do not
    decrease over a stretch without [True]. *)
Theorem items_since_last_true_spec (s : list bool) :
  let r := items_since_last_true s in
  length r = length s /\
  (forall i j : nat,
      (j <= i)%nat -> s !! j = Some true ->
      (forall m : nat, (j < m <= i)%nat -> s !! m = Some false) ->
      r !! i = Some (Z.of_nat i - Z.of_nat j)) /\
  (forall i : nat,
      (i < length s)%nat ->
      (forall m : nat, (m <= i)%nat -> s !! m = Some false) ->
      r !! i = Some (Z.of_nat i + 1)) /\
  r !! 0%nat = (fun b : bool => if b then 0 else 1) <$> s !! 0%nat /\
  (forall i : nat, (i < length s)%nat ->
      (r !! i = Some 0 <-> s !! i = Some true)) /\
  (forall (i k : nat) (v w : Z),
      (i <= k)%nat ->
      (forall m : nat, (i < m <= k)%nat -> s !! m = Some false) ->
      r !! i = Some v -> r !! k = Some w -> v <= w).
Proof.
  intros r. subst r.
  assert (Hlen : length (items_since_last_true s) = length s).
  { destruct (since_inv_final s) as (H & _). exact H. }
  split; [exact Hlen |].
  split; [| split; [| split; [| split]]].
  - intros i j Hji Hj Hf.
    assert (Hi : (i < length s)%nat).
    { destruct (decide (i = j)) as [-> | Hne]; [by eapply lookup_lt_Some |].
      eapply lookup_lt_Some. apply (Hf i). lia. }
    destruct (since_lookup s i Hi) as (j' & Hj' & ->).
    assert (last_true_before s (S i) (Z.of_nat j)) as Hspec.
    { split; [lia |]. split.
      - intros _. by rewrite Nat2Z.id.
      - intros m Hm. apply Hf. lia. }
    by rewrite (last_true_before_unique _ _ _ _ Hj' Hspec).
  - intros i Hi Hf.
    destruct (since_lookup s i Hi) as (j' & Hj' & ->).
    assert (last_true_before s (S i) (-1)) as Hspec.
    { split; [lia |]. split; [lia |]. intros m Hm. apply Hf. lia. }
    rewrite (last_true_before_unique _ _ _ _ Hj' Hspec). f_equal; lia.
  - destruct (s !! 0%nat) as [b |] eqn:H0.
    + destruct (since_lookup s 0 ltac:(by eapply lookup_lt_Some))
        as (j & (Hr & Ht & Hf) & ->).
      simpl. f_equal. destruct b.
      * assert (j = 0 \/ j = -1) as [-> | ->] by lia; [done |].
        specialize (Hf 0%nat ltac:(lia)). congruence.
      * assert (j = 0 \/ j = -1) as [-> | ->] by lia; [| done].
        specialize (Ht ltac:(lia)). change (Z.to_nat 0) with 0%nat in Ht. congruence.
    + simpl. apply lookup_ge_None. rewrite Hlen. by apply lookup_ge_None.
  - intros i Hi.
    destruct (since_lookup s i Hi) as (j & (Hr & Ht & Hf) & ->).
    split.
    + intros [= Heq]. assert (j = Z.of_nat i) as -> by lia.
      rewrite Nat2Z.id in Ht. apply Ht. lia.
    + intros Htrue. f_equal.
      destruct (decide (j = Z.of_nat i)) as [-> | Hne]; [lia |].
      specialize (Hf i ltac:(lia)). congruence.
  - intros i k v w Hik Hf Hv Hw.
    assert (Hk : (k < length s)%nat).
    { rewrite <- Hlen. by eapply lookup_lt_Some. }
    destruct (since_lookup s i ltac:(lia)) as (j & Hj & Hij).
    destruct (since_lookup s k Hk) as (j' & Hj' & Hkj).
    assert (last_true_before s (S k) j) as Hspec.
    { destruct Hj as (Hr & Ht & Hfj). split; [lia |]. split; [exact Ht |].
      intros m Hm. destruct (decide (m <= i)%nat).
      - apply Hfj. lia.
      - apply Hf. lia. }
    rewrite (last_true_before_unique _ _ _ _ Hj' Hspec) in Hkj.
    rewrite Hv in Hij. rewrite Hw in Hkj.
    injection Hij as ->. injection Hkj as ->. lia.
Qed.

(** ** [fill_gaps] *)

Lemma lookup_set_slice start stop v a (j : nat) :
  np.set_slice start stop v a !! j =
    (fun x =>
       if bool_decide
            (from_option (np.slice_bound (Z.of_nat (length a))) 0 start
             <= Z.of_nat j
             < from_option (np.slice_bound (Z.of_nat (length a)))
                           (Z.of_nat (length a)) stop)
       then v else x) <$> a !! j.
Proof. unfold np.set_slice. by rewrite list_lookup_imap. Qed.

Lemma length_set_slice start stop v a :
  length (np.set_slice start stop v a) = length a.
Proof. unfold np.set_slice. by rewrite length_imap. Qed.

Lemma false_run_unique s a b a' b' i :
  false_run s a b -> false_run s a' b' ->
  (a <= i < b)%nat -> (a' <= i < b')%nat -> a = a' /\ b = b'.
Proof.
  intros (Hab & Hf & Hl & Hr) (Hab' & Hf' & Hl' & Hr') Hi Hi'.
  split.
  - destruct (Nat.lt_trichotomy a a') as [Hlt | [Heq | Hgt]]; [| exact Heq |].
    + destruct a' as [| p]; [lia |].
      specialize (Hl' p eq_refl). specialize (Hf p ltac:(lia)). congruence.
    + destruct a as [| p]; [lia |].
      specialize (Hl p eq_refl). specialize (Hf' p ltac:(lia)). congruence.
  - destruct (Nat.lt_trichotomy b b') as [Hlt | [Heq | Hgt]]; [| exact Heq |].
    + specialize (Hf' b ltac:(lia)). congruence.
    + specialize (Hf b' ltac:(lia)). congruence.
Qed.

Lemma run_length_unique s i len len' :
  run_length s i len -> run_length s i len' -> len = len'.
Proof.
  intros [[Ht ->] | (a & b & Hrun & Hi & ->)]
         [[Ht' ->] | (a' & b' & Hrun' & Hi' & ->)].
  - reflexivity.
  - destruct Hrun' as (_ & Hf & _). specialize (Hf i Hi'). congruence.
  - destruct Hrun as (_ & Hf & _). specialize (Hf i Hi). congruence.
  - destruct (false_run_unique _ _ _ _ _ _ Hrun Hrun' Hi Hi') as [-> ->].
    reflexivity.
Qed.

Lemma run_length_nonneg s i len : run_length s i len -> 0 <= len.
Proof.
  intros [[_ ->] | (a & b & (Hab & _) & _ & ->)]; lia.
Qed.

Lemma gaps_inv_init s : gaps_inv s 0 (GapsState (np.zeros_like s) 0).
Proof.
  exists 0%nat. simpl.
  split; [reflexivity |]. split; [lia |].
  split; [apply length_replicate |].
  split; [intros j Hj; lia |].
  split; [intros a' Ha'; lia |].
  split; [intros j Hj; lia |].
  intros j Hj. apply lookup_replicate_2. lia.
Qed.

Lemma gaps_inv_step s k st :
  (k < length s)%nat ->
  gaps_inv s k st -> gaps_inv s (S k) (fill_gaps_body s st k).
Proof.
  intros Hk (c & Hc & Hck & Hlen & Hopen & Hleft & Hdone & Hzero).
  destruct (lookup_lt_is_Some_2 s k Hk) as [x Hx].
  unfold fill_gaps_body. destruct x.
  - (* [arr[i]] is [True]: the open run is closed *)
    rewrite bool_decide_eq_false_2 by congruence.
    exists 0%nat. simpl.
    split; [reflexivity |]. split; [lia |].
    split; [by rewrite length_set_slice |].
    split; [intros j Hj; lia |].
    split; [intros a' Ha'; by replace a' with k by lia |].
    split; [| intros j Hj; rewrite lookup_set_slice, Hzero by lia;
              simpl; rewrite bool_decide_eq_false_2; [done |];
              rewrite Hc; unfold np.slice_bound;
              repeat case_bool_decide; lia].
    intros j Hj.
    assert (Hbounds :
      forall j' : nat, (j' < length s)%nat ->
        (np.slice_bound (Z.of_nat (length (false_series_lengths st)))
                        (Z.of_nat k - current_length st)
         <= Z.of_nat j'
         < np.slice_bound (Z.of_nat (length (false_series_lengths st)))
                          (Z.of_nat k))
        <-> (k - c <= j' < k)%nat).
    { intros j' Hj'. rewrite Hc, Hlen. unfold np.slice_bound.
      repeat case_bool_decide; lia. }
    rewrite lookup_set_slice. simpl.
    destruct (decide (j < k - c)%nat) as [Hold | Hnew].
    + destruct (Hdone j Hold) as (len & -> & Hrun). simpl.
      rewrite bool_decide_eq_false_2 by (rewrite Hbounds; lia).
      eauto.
    + destruct (decide (j = k)) as [-> | Hne].
      * rewrite Hzero by lia. simpl.
        rewrite bool_decide_eq_false_2 by (rewrite Hbounds; lia).
        eexists. split; [reflexivity |]. left. done.
      * rewrite Hzero by lia. simpl.
        rewrite bool_decide_eq_true_2 by (rewrite Hbounds; lia).
        eexists. split; [reflexivity |]. right.
        exists (k - c)%nat, k. split; [| split; lia].
        split; [lia |]. split; [exact Hopen |]. split; [exact Hleft |].
        congruence.
  - (* [arr[i]] is [False]: the open run grows *)
    rewrite bool_decide_eq_true_2 by done.
    exists (S c). simpl.
    split; [lia |]. split; [lia |]. split; [exact Hlen |].
    replace (S k - S c)%nat with (k - c)%nat by lia.
    split; [| split; [exact Hleft | split; [exact Hdone |]]].
    + intros j Hj. destruct (decide (j = k)) as [-> | Hne]; [exact Hx |].
      apply Hopen. lia.
    + intros j Hj. apply Hzero. lia.
Qed.

Lemma gaps_loop s k :
  (k <= length s)%nat ->
  gaps_inv s k (foldl (fill_gaps_body s) (GapsState (np.zeros_like s) 0) (seq 0 k)).
Proof.
  induction k as [| k IH]; intros Hk.
  - apply gaps_inv_init.
  - rewrite seq_S, foldl_snoc. simpl. apply gaps_inv_step; [lia |].
    apply IH. lia.
Qed.

(** What the lengths array holds when the comparison is made. *)
Lemma fill_gaps_lengths_spec s :
  length (fill_gaps_lengths s) = length s /\
  forall i : nat, (i < length s)%nat ->
    exists len, fill_gaps_lengths s !! i = Some len /\ run_length s i len.
Proof.
  unfold fill_gaps_lengths.
  destruct (gaps_loop s (length s) (le_n _))
    as (c & Hc & Hck & Hlen & Hopen & Hleft & Hdone & Hzero).
  set (st := foldl _ _ _) in *. clearbody st.
  case_bool_decide as Hpos.
  - split; [by rewrite length_set_slice |].
    intros i Hi. rewrite lookup_set_slice. simpl.
    assert (Hbounds :
      (np.slice_bound (Z.of_nat (length (false_series_lengths st)))
                      (- current_length st)
       <= Z.of_nat i < Z.of_nat (length (false_series_lengths st)))
      <-> (length s - c <= i)%nat).
    { rewrite Hc, Hlen. unfold np.slice_bound. case_bool_decide; lia. }
    destruct (decide (i < length s - c)%nat) as [Hold | Hnew].
    + destruct (Hdone i Hold) as (len & -> & Hrun). simpl.
      rewrite bool_decide_eq_false_2 by (rewrite Hbounds; lia). eauto.
    + rewrite Hzero by lia. simpl.
      rewrite bool_decide_eq_true_2 by (rewrite Hbounds; lia).
      eexists. split; [reflexivity |]. right.
      exists (length s - c)%nat, (length s). split; [| split; lia].
      split; [lia |]. split; [exact Hopen |]. split; [exact Hleft |].
      rewrite lookup_ge_None_2; [done | lia].
  - split; [exact Hlen |].
    intros i Hi. apply Hdone. lia.
Qed.

Lemma length_fill_gaps s g : length (fill_gaps s g) = length s.
Proof.
  unfold fill_gaps. rewrite length_fmap. apply fill_gaps_lengths_spec.
Qed.

Lemma fill_gaps_lookup s g i :
  (i < length s)%nat ->
  exists len, run_length s i len /\
              fill_gaps s g !! i = Some (bool_decide (len <= g)).
Proof.
  intros Hi. destruct (fill_gaps_lengths_spec s) as [_ H].
  destruct (H i Hi) as (len & Hlen & Hrun).
  exists len. split; [exact Hrun |].
  unfold fill_gaps. by rewrite list_lookup_fmap, Hlen.
Qed.

Lemma run_length_of_run s a b i :
  false_run s a b -> (a <= i < b)%nat ->
  run_length s i (Z.of_nat b - Z.of_nat a).
Proof. intros Hrun Hi. right. eauto. Qed.

Lemma false_run_lt_length s a b i :
  false_run s a b -> (a <= i < b)%nat -> (i < length s)%nat.
Proof.
  intros (_ & Hf & _) Hi. eapply lookup_lt_Some. by apply Hf.
Qed.

Lemma fill_gaps_on_run s g a b i :
  false_run s a b -> (a <= i < b)%nat ->
  fill_gaps s g !! i = Some (bool_decide (Z.of_nat b - Z.of_nat a <= g)).
Proof.
  intros Hrun Hi.
  destruct (fill_gaps_lookup s g i) as (len & Hlen & ->);
    [by eapply false_run_lt_length |].
  by rewrite (run_length_unique _ _ _ _ Hlen (run_length_of_run _ _ _ _ Hrun Hi)).
Qed.

Lemma fill_gaps_on_true s g i :
  s !! i = Some true -> fill_gaps s g !! i = Some (bool_decide (0 <= g)).
Proof.
  intros Ht.
  destruct (fill_gaps_lookup s g i) as (len & Hlen & ->);
    [by eapply lookup_lt_Some |].
  assert (run_length s i 0) as H0 by (by left).
  by rewrite (run_length_unique _ _ _ _ Hlen H0).
Qed.

(** The whole of [s] is one run when every entry is [False]. *)
Lemma false_run_trailing s a :
  (a < length s)%nat ->
  (forall j : nat, (a <= j < length s)%nat -> s !! j = Some false) ->
  (forall a' : nat, S a' = a -> s !! a' = Some true) ->
  false_run s a (length s).
Proof.
  intros Ha Hf Hl. split; [exact Ha |]. split; [exact Hf |].
  split; [exact Hl |]. rewrite lookup_ge_None_2; [done | lia].
Qed.

(** C5.  For [max_gap >= 0], position [i] of [fill_gaps s max_gap] is
    [True] exactly when [s] is [True] at [i] or [i] lies in a maximal run
    of [False] of length at most [max_gap].  Every position of a maximal
    run gets the same answer, a run that reaches the end of the series
    included, and a series of only [False] that is not longer than
    [max_gap] becomes all [True]. *)
Theorem fill_gaps_spec (s : list bool) (max_gap : Z) :
  0 <= max_gap ->
  length (fill_gaps s max_gap) = length s /\
  (forall i : nat, (i < length s)%nat ->
     (fill_gaps s max_gap !! i = Some true <->
      (s !! i = Some true \/
       exists a b : nat, false_run s a b /\ (a <= i < b)%nat /\
                         Z.of_nat b - Z.of_nat a <= max_gap))) /\
  (forall a b : nat, false_run s a b ->
     forall i : nat, (a <= i < b)%nat ->
       fill_gaps s max_gap !! i
       = Some (bool_decide (Z.of_nat b - Z.of_nat a <= max_gap))) /\
  (forall a : nat,
     (a < length s)%nat ->
     (forall j : nat, (a <= j < length s)%nat -> s !! j = Some false) ->
     (forall a' : nat, S a' = a -> s !! a' = Some true) ->
     forall i : nat, (a <= i < length s)%nat ->
       fill_gaps s max_gap !! i
       = Some (bool_decide (Z.of_nat (length s) - Z.of_nat a <= max_gap))) /\
  ((forall j : nat, (j < length s)%nat -> s !! j = Some false) ->
   Z.of_nat (length s) <= max_gap ->
   fill_gaps s max_gap = replicate (length s) true).
Proof.
  intros Hg.
  split; [apply length_fill_gaps |].
  split; [| split; [| split]].
  - intros i Hi.
    destruct (fill_gaps_lookup s max_gap i Hi) as (len & Hlen & ->).
    split.
    + intros [= Hle]. apply bool_decide_eq_true_1 in Hle.
      destruct Hlen as [[Ht _] | (a & b & Hrun & Hab & ->)].
      * by left.
      * right. eauto.
    + intros [Ht | (a & b & Hrun & Hab & Hle)]; f_equal;
        apply bool_decide_eq_true_2.
      * assert (run_length s i 0) as H0 by (by left).
        rewrite (run_length_unique _ _ _ _ Hlen H0). exact Hg.
      * rewrite (run_length_unique _ _ _ _ Hlen
                   (run_length_of_run _ _ _ _ Hrun Hab)).
        exact Hle.
  - intros a b Hrun i Hi. by apply fill_gaps_on_run.
  - intros a Ha Hf Hl i Hi.
    apply fill_gaps_on_run; [| exact Hi]. by apply false_run_trailing.
  - intros Hf Hle. apply list_eq. intros i.
    destruct (decide (i < length s)%nat) as [Hi | Hi].
    + rewrite (fill_gaps_on_run s max_gap 0 (length s) i).
      * rewrite bool_decide_eq_true_2 by lia.
        symmetry. by apply lookup_replicate_2.
      * apply false_run_trailing; [lia | | intros a' Ha'; lia].
        intros j Hj. apply Hf. lia.
      * lia.
    + rewrite !lookup_ge_None_2; [done | |].
      * rewrite length_replicate. lia.
      * rewrite length_fill_gaps. lia.
Qed.

Lemma fill_gaps_spec_witness :
  0 <= 1 /\
  generic.fill_gaps [false; true; false; false; true; false] 1 !! 0%nat
  = Some (bool_decide (Z.of_nat 1 - Z.of_nat 0 <= 1)).
Proof.
  split; [lia |].
  refine (proj1 (proj2 (proj2
            (fill_gaps_spec [false; true; false; false; true; false] 1 _)))
            0%nat 1%nat _ 0%nat _).
  - lia.
  - split; [lia |]. split; [| split].
    + intros j Hj. assert (j = 0%nat) as -> by lia. reflexivity.
    + intros a' Ha'. lia.
    + simpl. congruence.
  - lia.
Defined.

(** C7.  For [g >= 0], filling the gaps of an already filled series
    changes nothing. *)
Theorem fill_gaps_idempotent (s : list bool) (g : Z) :
  0 <= g -> fill_gaps (fill_gaps s g) g = fill_gaps s g.
Proof.
  intros Hg. apply list_eq. intros i.
  destruct (decide (i < length s)%nat) as [Hi | Hi].
  2: { rewrite !lookup_ge_None_2; [done | |];
       rewrite ?length_fill_gaps; lia. }
  destruct (fill_gaps_lookup s g i Hi) as (len & Hlen & Hsi).
  rewrite Hsi. case_bool_decide as Hle.
  - (* position [i] is [True] after the first pass *)
    rewrite (fill_gaps_on_true _ g i Hsi).
    by rewrite bool_decide_eq_true_2.
  - (* position [i] lies in a long run, which is a run of the result too *)
    destruct Hlen as [[_ ->] | (a & b & Hrun & Hab & ->)]; [lia |].
    assert (false_run (fill_gaps s g) a b) as Hrun'.
    { destruct Hrun as (Hlt & Hf & Hl & Hr).
      assert (Hrun : false_run s a b) by (split; [| split; [| split]]; done).
      split; [exact Hlt |]. split; [| split].
      - intros j Hj. rewrite (fill_gaps_on_run s g a b j Hrun Hj).
        by rewrite bool_decide_eq_false_2.
      - intros a' Ha'. rewrite (fill_gaps_on_true s g a' (Hl a' Ha')).
        by rewrite bool_decide_eq_true_2.
      - destruct (s !! b) as [[|] |] eqn:Hb.
        + rewrite (fill_gaps_on_true s g b Hb).
          by rewrite bool_decide_eq_true_2.
        + done.
        + rewrite lookup_ge_None_2; [done |].
          rewrite length_fill_gaps. by apply lookup_ge_None. }
    rewrite (fill_gaps_on_run _ g a b i Hrun' Hab).
    by rewrite bool_decide_eq_false_2.
Qed.

Lemma fill_gaps_idempotent_witness :
  0 <= 2 /\
  generic.fill_gaps
    (generic.fill_gaps [false; true; false; false; false; true; false] 2) 2
  = generic.fill_gaps [false; true; false; false; false; true; false] 2.
Proof.
  split; [lia |]. apply fill_gaps_idempotent. lia.
Defined.

(** C10.  For [max_gap < 0] every position of [fill_gaps s max_gap] is
    [False], also where [s] is [True]: that the [True] entries of [s] are
    kept needs [max_gap >= 0]. *)
Theorem fill_gaps_negative_gap (s : list bool) (max_gap : Z) :
  max_gap < 0 ->
  fill_gaps s max_gap = replicate (length s) false /\
  (forall i : nat, (i < length s)%nat -> fill_gaps s max_gap !! i = Some false) /\
  (forall i : nat, s !! i = Some true -> fill_gaps s max_gap !! i = Some false).
Proof.
  intros Hg.
  assert (Hpos : forall i : nat, (i < length s)%nat ->
                   fill_gaps s max_gap !! i = Some false).
  { intros i Hi.
    destruct (fill_gaps_lookup s max_gap i Hi) as (len & Hlen & ->).
    apply run_length_nonneg in Hlen.
    by rewrite bool_decide_eq_false_2 by lia. }
  split; [| split; [exact Hpos |]].
  - apply list_eq. intros i.
    destruct (decide (i < length s)%nat) as [Hi | Hi].
    + rewrite (Hpos i Hi). symmetry. by apply lookup_replicate_2.
    + rewrite !lookup_ge_None_2; [done | |].
      * rewrite length_replicate. lia.
      * rewrite length_fill_gaps. lia.
  - intros i Hi. apply Hpos. by eapply lookup_lt_Some.
Qed.

Lemma fill_gaps_negative_gap_witness :
  -1 < 0 /\
  generic.fill_gaps [true; false; true] (-1) !! 0%nat = Some false.
Proof.
  split; [lia |].
  refine (proj2 (proj2 (fill_gaps_negative_gap [true; false; true] (-1) _))
                0%nat _).
  - lia.
  - reflexivity.
Defined.

Lemma items_since_last_true_spec_witness :
  generic.items_since_last_true [false; true; false; false] !! 3%nat
  = Some (Z.of_nat 3 - Z.of_nat 1).
Proof.
  refine (proj1 (proj2 (items_since_last_true_spec [false; true; false; false]))
                3%nat 1%nat _ _ _).
  - lia.
  - reflexivity.
  - intros m Hm.
    assert (m = 2%nat \/ m = 3%nat) as [-> | ->] by lia; reflexivity.
Defined.

End generic_facts.

(** * Properties of [ascab/utils/weather.py] *)

Module weather_facts.
Import weather weather_spec.

(** ** Helpers on [np.where] and [np.sum] *)

Lemma last_where_from (mask : list bool) : forall k : nat,
  match list.last (np.where_from k mask) with
  | Some l =>
      exists j : nat, l = (k + j)%nat /\ mask !! j = Some true /\
                      forall j' : nat, mask !! j' = Some true -> (j' <= j)%nat
  | None => forall j : nat, mask !! j <> Some true
  end.
Proof.
  induction mask as [| b rest IH]; intros k.
  - simpl. intros j. by rewrite lookup_nil.
  - specialize (IH (S k)). simpl. destruct b.
    + rewrite last_cons.
      destruct (list.last (np.where_from (S k) rest)) as [l |].
      * destruct IH as (j & -> & Hj & Hmax). exists (S j).
        split; [lia |]. split; [exact Hj |].
        intros [| j'] Hj'; [lia |]. simpl in Hj'.
        specialize (Hmax j' Hj'). lia.
      * exists 0%nat. split; [lia |]. split; [done |].
        intros [| j'] Hj'; [lia |]. simpl in Hj'. by destruct (IH j').
    + destruct (list.last (np.where_from (S k) rest)) as [l |].
      * destruct IH as (j & -> & Hj & Hmax). exists (S j).
        split; [lia |]. split; [exact Hj |].
        intros [| j'] Hj'; [lia |]. simpl in Hj'.
        specialize (Hmax j' Hj'). lia.
      * intros [| j']; simpl; [congruence | apply IH].
Qed.

Lemma sum_bool_count (a : list bool) :
  np.sum_bool a = Z.of_nat (length (filter (fun b => b = true) a)).
Proof.
  induction a as [| b a IH]; [reflexivity |].
  simpl. rewrite IH. destruct b.
  - rewrite filter_cons_True by done. simpl. lia.
  - rewrite filter_cons_False by done. lia.
Qed.

(** ** [compute_duration_and_temperature_wet_period] *)

Lemma mask_lookup (labels : list Z) (wet : list bool) (i : nat) :
  zip_with (fun l w => bool_decide (l = 2) && Bool.eqb w true) labels wet !! i
  = Some true
  <-> labels !! i = Some 2 /\ wet !! i = Some true.
Proof.
  rewrite lookup_zip_with.
  destruct (labels !! i) as [l |], (wet !! i) as [w |]; simpl;
    try (split; [congruence | intros [? ?]; congruence]).
  destruct w; simpl; case_bool_decide; subst; simpl;
    (split; [try congruence | try (intros [? ?]; congruence)]); eauto.
Qed.

(** The two outcomes of the function, by the last selected position. *)
Lemma compute_cases (df : DataFrame) :
  (exists last_index : nat,
      second_period_wet df last_index /\
      (forall j : nat, second_period_wet df j -> (j <= last_index)%nat) /\
      compute_duration_and_temperature_wet_period df
      = (np.sum_bool (take (S last_index) (wet_series df)),
         Some (np.mean (take (S last_index) (temperature_2m <$> df))))) \/
  ((forall j : nat, ~ second_period_wet df j) /\
   compute_duration_and_temperature_wet_period df = (0, None)).
Proof.
  unfold compute_duration_and_temperature_wet_period, second_period_wet,
    wet_labels, np.where_, np.prefix.
  destruct (ndimage.label (generic.fill_gaps (wet_series df) 4))
    as [wet_periods num_periods]. simpl.
  pose proof (last_where_from
                (zip_with (fun l w => bool_decide (l = 2) && Bool.eqb w true)
                          wet_periods (wet_series df)) 0) as Hlast.
  destruct (list.last _) as [last_index |].
  - left. destruct Hlast as (j & -> & Hj & Hmax). simpl.
    exists j. split; [by apply mask_lookup |].
    split; [intros j' Hj'; by apply Hmax, mask_lookup |].
    by replace (j + 1)%nat with (S j) by lia.
  - right. split; [| reflexivity].
    intros j Hj. by apply (Hlast j), mask_lookup.
Qed.

Lemma mean_cons (x : Q) (a : list Q) :
  np.mean (x :: a)
  = np.Finite (np.sum (x :: a) / inject_Z (Z.of_nat (length (x :: a))))%Q.
Proof. reflexivity. Qed.

(** C1.  When some wet hour carries label 2 in the labelling of the
    bridged wet series, the function returns, for the greatest such
    position [last_index], the number of wet hours among the hours
    [0 .. last_index] and the mean of the temperature over all the hours
    [0 .. last_index], wet or dry. *)
Theorem wet_period_prefix (df : DataFrame) (i : nat) :
  (ndimage.label (generic.fill_gaps (wet_series df) 4)).1 !! i = Some 2 ->
  wet_series df !! i = Some true ->
  exists last_index : nat,
    second_period_wet df last_index /\
    (forall j : nat, second_period_wet df j -> (j <= last_index)%nat) /\
    compute_duration_and_temperature_wet_period df
    = (Z.of_nat (length (filter (fun b => b = true)
                                (take (S last_index) (wet_series df)))),
       Some (np.Finite
               (np.sum (take (S last_index) (temperature_2m <$> df))
                / inject_Z (Z.of_nat (S last_index)))%Q)).
Proof.
  intros Hlabel Hwet.
  destruct (compute_cases df) as [(l & Hl & Hmax & ->) | [Hnone _]].
  2: { exfalso. apply (Hnone i). by split. }
  exists l. split; [exact Hl |]. split; [exact Hmax |].
  rewrite sum_bool_count. f_equal. f_equal.
  assert (Hlen : (l < length (temperature_2m <$> df))%nat).
  { rewrite length_fmap. destruct Hl as [_ Hl].
    apply lookup_lt_Some in Hl. unfold wet_series in Hl.
    by rewrite length_fmap in Hl. }
  destruct (temperature_2m <$> df) as [| t ts]; [simpl in Hlen; lia |].
  simpl in Hlen. rewrite firstn_cons, mean_cons. do 3 f_equal.
  simpl. rewrite length_take. lia.
Qed.

(** C6.  When no wet hour carries label 2, the function returns 0 wet
    hours and no temperature. *)
Theorem wet_period_absent (df : DataFrame) :
  (forall i : nat,
      ~ ((ndimage.label (generic.fill_gaps (wet_series df) 4)).1 !! i = Some 2 /\
         wet_series df !! i = Some true)) ->
  compute_duration_and_temperature_wet_period df = (0, None).
Proof.
  intros Hnone.
  destruct (compute_cases df) as [(l & Hl & _) | [_ ->]]; [| reflexivity].
  exfalso. by apply (Hnone l).
Qed.

(** C2, as amended.  On a window with the pattern 8 wet, 2 dry, 6 wet,
    8 dry, 12 wet the function returns 26 wet hours and the mean of the
    temperature of all 36 hours: the second period is the last 12 hours,
    so the prefix is the whole window. *)
Theorem rossi_example (df : DataFrame) :
  wet_series df = rossi_pattern ->
  compute_duration_and_temperature_wet_period df
  = (26, Some (np.mean (take 36 (temperature_2m <$> df)))).
Proof.
  intros Hpat.
  assert (Hlabels : wet_labels df
                    = replicate 16 1 ++ replicate 8 0 ++ replicate 12 2).
  { unfold wet_labels. rewrite Hpat. vm_compute. reflexivity. }
  assert (H35 : second_period_wet df 35).
  { unfold second_period_wet. rewrite Hlabels, Hpat. by split. }
  destruct (compute_cases df) as [(l & Hl & Hmax & ->) | [Hnone _]].
  2: { exfalso. by apply (Hnone 35%nat). }
  assert (l = 35%nat) as ->.
  { specialize (Hmax 35%nat H35). destruct Hl as [_ Hl].
    apply lookup_lt_Some in Hl. rewrite Hpat in Hl. simpl in Hl. lia. }
  rewrite Hpat. reflexivity.
Qed.

Lemma rossi_example_witness :
  wet_series rossi_window = rossi_pattern /\
  compute_duration_and_temperature_wet_period rossi_window
  = (26, Some (np.mean (take 36 (temperature_2m <$> rossi_window)))).
Proof.
  assert (H : wet_series rossi_window = rossi_pattern)
    by (vm_compute; reflexivity).
  split; [exact H | exact (rossi_example rossi_window H)].
Defined.

(** C2, as stated, fails: on [rossi_window] the returned temperature is
    the mean over 36 hours, which differs from the mean of the first 16. *)
Lemma rossi_example_first16_counterexample :
  wet_series rossi_window = rossi_pattern /\
  exists q q16 : Q,
    compute_duration_and_temperature_wet_period rossi_window
    = (26, Some (np.Finite q)) /\
    np.mean (take 16 (temperature_2m <$> rossi_window)) = np.Finite q16 /\
    ~ (q == q16)%Q.
Proof.
  split; [vm_compute; reflexivity |].
  eexists _, _. split; [vm_compute; reflexivity |].
  split; [vm_compute; reflexivity |].
  intros H. vm_compute in H. discriminate H.
Qed.

(** ** [is_rain_event] *)

Lemma rain_series_proper (threshold : Q) (ps qs : list Q) :
  Forall2 Qeq ps qs ->
  (fun p => Qle_bool threshold p) <$> ps = (fun p => Qle_bool threshold p) <$> qs.
Proof.
  induction 1 as [| p q ps qs Hpq _ IH]; [reflexivity |].
  rewrite !fmap_cons, IH. f_equal. by rewrite Hpq.
Qed.

(** C3, as amended.  For a day with precipitation
    [0, 0, 0.3, 0, 0, 0.4, 0, 0, 0, 0], threshold 0.2 and [max_gap] 2, the
    result is [True] at the positions 0 to 5 and [False] at 6 to 9: the
    two dry hours before the first rain are a run of length 2 and are
    filled like the two between the rain hours. *)
Theorem rain_event_example (df : DataFrame) :
  Forall2 Qeq (precipitation <$> df) rain_day_precipitation ->
  is_rain_event df (2 # 10) 2 = replicate 6 true ++ replicate 4 false.
Proof.
  intros Hp. unfold is_rain_event. cbv zeta.
  rewrite (rain_series_proper (2 # 10) _ _ Hp). vm_compute. reflexivity.
Qed.

Lemma rain_day_has_precipitation :
  Forall2 Qeq (precipitation <$> rain_day) rain_day_precipitation.
Proof. vm_compute. repeat constructor. Qed.

Lemma rain_event_example_witness :
  is_rain_event rain_day (2 # 10) 2 = replicate 6 true ++ replicate 4 false.
Proof. exact (rain_event_example rain_day rain_day_has_precipitation). Defined.

(** C3, as stated, fails: the positions 0 and 1 of the example day are
    [True] as well. *)
Lemma rain_event_example_counterexample :
  Forall2 Qeq (precipitation <$> rain_day) rain_day_precipitation /\
  is_rain_event rain_day (2 # 10) 2 !! 0%nat = Some true /\
  is_rain_event rain_day (2 # 10) 2 !! 1%nat = Some true /\
  is_rain_event rain_day (2 # 10) 2
  <> [false; false; true; true; true; true; false; false; false; false].
Proof.
  split; [exact rain_day_has_precipitation |].
  split; [vm_compute; reflexivity |].
  split; [vm_compute; reflexivity |].
  vm_compute. discriminate.
Qed.

(** ** The day lookup *)

Lemma on_day_bounds (day t : Z) :
  t `div` 24 = day <-> 24 * day <= t /\ t <= 24 * day + 23.
Proof. split; [intros <- | intros H]; Z.div_mod_to_equations; lia. Qed.

Lemma monotonic_cons (t : Z) (rest : list Z) :
  is_monotonic_increasing (t :: rest) = true ->
  Forall (Z.le t) rest /\ is_monotonic_increasing rest = true.
Proof.
  revert t. induction rest as [| t' rest IH]; intros t H.
  - split; [constructor | reflexivity].
  - change (bool_decide (t <= t') && is_monotonic_increasing (t' :: rest) = true) in H.
    apply andb_prop in H as [Hle Hrest]. apply bool_decide_eq_true_1 in Hle.
    split; [| exact Hrest].
    destruct (IH t' Hrest) as [Hall _].
    constructor; [exact Hle |].
    eapply List.Forall_impl; [| exact Hall]. intros x Hx. unfold compose in Hx. simpl in Hx. lia.
Qed.

Lemma searchsorted_left_rows (df : DataFrame) (x : Z) :
  searchsorted_left (date <$> df) x
  = length (filter (fun row => date row < x) df).
Proof.
  unfold searchsorted_left. induction df as [| r df IH]; [reflexivity |].
  rewrite fmap_cons. destruct (decide (date r < x)) as [Hlt | Hge].
  - rewrite !filter_cons_True by done. simpl. by rewrite IH.
  - by rewrite !filter_cons_False by done.
Qed.

Lemma searchsorted_right_rows (df : DataFrame) (x : Z) :
  searchsorted_right (date <$> df) x
  = length (filter (fun row => date row <= x) df).
Proof.
  unfold searchsorted_right. induction df as [| r df IH]; [reflexivity |].
  rewrite fmap_cons. destruct (decide (date r <= x)) as [Hle | Hgt].
  - rewrite !filter_cons_True by done. simpl. by rewrite IH.
  - by rewrite !filter_cons_False by done.
Qed.

Lemma filter_all_false (P : observation -> Prop)
      `{!forall r, Decision (P r)} (df : DataFrame) :
  Forall (fun r => ~ P r) df -> filter P df = [].
Proof.
  induction 1 as [| r df Hr _ IH]; [reflexivity |].
  by rewrite filter_cons_False.
Qed.

Lemma filter_agree (P P' : observation -> Prop)
      `{!forall r, Decision (P r)} `{!forall r, Decision (P' r)}
      (df : DataFrame) :
  Forall (fun r => P r <-> P' r) df -> filter P df = filter P' df.
Proof.
  induction 1 as [| r df Hr _ IH]; [reflexivity |].
  destruct (decide (P r)) as [HP | HP].
  - rewrite !filter_cons_True by tauto. by rewrite IH.
  - rewrite !filter_cons_False by tauto. exact IH.
Qed.

(** On a sorted index the rows up to a bound are a prefix. *)
Lemma take_upto_sorted (df : DataFrame) (t2 : Z) :
  is_monotonic_increasing (date <$> df) = true ->
  take (length (filter (fun row => date row <= t2) df)) df
  = filter (fun row => date row <= t2) df.
Proof.
  induction df as [| r df IH]; intros Hmono; [reflexivity |].
  rewrite fmap_cons in Hmono.
  apply monotonic_cons in Hmono as [Hall Hmono].
  destruct (decide (date r <= t2)) as [Hle | Hgt].
  - rewrite filter_cons_True by done. simpl. by rewrite IH.
  - rewrite filter_all_false; [reflexivity |].
    constructor; [exact Hgt |].
    rewrite Forall_fmap in Hall.
    eapply List.Forall_impl; [| exact Hall]. intros x Hx. unfold compose in Hx. simpl in Hx. lia.
Qed.

(** On a sorted index the slice between the two binary searches holds
    the rows inside the bounds. *)
Lemma sorted_slice (df : DataFrame) (t1 t2 : Z) :
  t1 <= t2 ->
  is_monotonic_increasing (date <$> df) = true ->
  take (searchsorted_right (date <$> df) t2 - searchsorted_left (date <$> df) t1)
       (drop (searchsorted_left (date <$> df) t1) df)
  = filter (fun row => t1 <= date row /\ date row <= t2) df.
Proof.
  intros Ht. rewrite searchsorted_left_rows, searchsorted_right_rows.
  induction df as [| r df IH]; intros Hmono; [reflexivity |].
  pose proof Hmono as Hmono'. rewrite fmap_cons in Hmono'.
  apply monotonic_cons in Hmono' as [Hall Hrest].
  destruct (decide (date r < t1)) as [Hlt | Hge].
  - rewrite (filter_cons_True (fun row => date row < t1)) by done.
    rewrite (filter_cons_True (fun row => date row <= t2)) by lia.
    rewrite filter_cons_False by lia. simpl. by apply IH.
  - rewrite (filter_all_false (fun row => date row < t1)).
    2: { constructor; [exact Hge |]. rewrite Forall_fmap in Hall.
         eapply List.Forall_impl; [| exact Hall]. intros x Hx. unfold compose in Hx. simpl in Hx. lia. }
    simpl length. rewrite Nat.sub_0_r. simpl drop.
    rewrite (take_upto_sorted (r :: df) t2 Hmono).
    symmetry. apply filter_agree.
    constructor; [lia |]. rewrite Forall_fmap in Hall.
    eapply List.Forall_impl; [| exact Hall]. intros x Hx. unfold compose in Hx. simpl in Hx. lia.
Qed.

Lemma monotonic_bounds (df : DataFrame) (first final : Z) (r : observation) :
  is_monotonic_increasing (date <$> df) = true ->
  head (date <$> df) = Some first ->
  list.last (date <$> df) = Some final ->
  r ∈ df -> first <= date r <= final.
Proof.
  revert first r. induction df as [| r0 df IH]; intros first r Hmono Hhead Hlast Hr.
  - by apply not_elem_of_nil in Hr.
  - rewrite fmap_cons in *. simpl in Hhead. injection Hhead as <-.
    apply monotonic_cons in Hmono as [Hall Hrest].
    destruct df as [| r1 df].
    + simpl in Hlast. injection Hlast as <-.
      apply elem_of_cons in Hr as [-> | Hr]; [lia |].
      by apply not_elem_of_nil in Hr.
    + rewrite fmap_cons, last_cons_cons in Hlast. rewrite <- fmap_cons in Hlast.
      assert (date r1 <= final) as Hr1.
      { destruct (IH (date r1) r1 Hrest eq_refl Hlast) as [_ H]; [by left | exact H]. }
      rewrite fmap_cons in Hall.
      inversion_clear Hall as [| ? ? H3 H4].
      apply elem_of_cons in Hr as [-> | Hr]; [lia |].
      destruct (IH (date r1) r Hrest eq_refl Hlast Hr) as [H1 H2]. lia.
Qed.

Lemma day_filter (day : Z) (df : DataFrame) :
  filter (fun row => 24 * day <= date row /\ date row <= 24 * day + 23) df
  = hours_of_day df day.
Proof.
  unfold hours_of_day. apply list_filter_iff. intros x. symmetry.
  apply on_day_bounds.
Qed.


(** A partial-date lookup that succeeds gives the rows of the day. *)
Lemma partial_date_slice_inr (day : Z) (df w : DataFrame) :
  partial_date_slice day df = inr w -> w = hours_of_day df day.
Proof.
  unfold partial_date_slice, day_bounds.
  destruct (is_monotonic_increasing (date <$> df)) eqn:Hmono.
  - destruct (head (date <$> df)) as [first |] eqn:Hhead.
    2: { intros [= <-]. destruct df; [reflexivity | discriminate]. }
    destruct (list.last (date <$> df)) as [final |] eqn:Hlast.
    2: { intros [= <-]. apply last_None in Hlast.
         destruct df; [reflexivity | discriminate]. }
    case_bool_decide; [discriminate |]. intros [= <-].
    rewrite sorted_slice by (done || lia). apply day_filter.
  - intros [= <-]. apply day_filter.
Qed.

(** A partial-date lookup fails only with [KeyError], for a day without
    rows. *)
Lemma partial_date_slice_inl (day : Z) (df : DataFrame) (e : exn) :
  partial_date_slice day df = inl e ->
  e = KeyError day /\ hours_of_day df day = [].
Proof.
  unfold partial_date_slice, day_bounds.
  destruct (is_monotonic_increasing (date <$> df)) eqn:Hmono; [| discriminate].
  destruct (head (date <$> df)) as [first |] eqn:Hhead; [| discriminate].
  destruct (list.last (date <$> df)) as [final |] eqn:Hlast; [| discriminate].
  case_bool_decide as Hout; [| discriminate]. intros [= <-].
  split; [reflexivity |].
  apply filter_all_false. apply Forall_forall. intros r Hr.
  pose proof (monotonic_bounds df first final r Hmono Hhead Hlast Hr).
  rewrite on_day_bounds. lia.
Qed.

(** A day wholly before or after a sorted series has no rows. *)
Lemma out_of_range_no_hours (day : Z) (df : DataFrame) (first final : Z) :
  is_monotonic_increasing (date <$> df) = true ->
  head (date <$> df) = Some first ->
  list.last (date <$> df) = Some final ->
  24 * day + 23 < first \/ final < 24 * day ->
  hours_of_day df day = [].
Proof.
  intros Hmono Hhead Hlast Hout.
  apply filter_all_false. apply Forall_forall. intros r Hr.
  pose proof (monotonic_bounds df first final r Hmono Hhead Hlast Hr).
  rewrite on_day_bounds. lia.
Qed.

(** On an index of day resolution the rows at the midnight of a day are
    the rows of the day. *)
Lemma exact_filter (day : Z) (df : DataFrame) :
  is_day_resolution (date <$> df) = true ->
  filter (fun row => date row = 24 * day) df = hours_of_day df day.
Proof.
  intros Hres. unfold hours_of_day. apply filter_agree.
  unfold is_day_resolution in Hres. rewrite forallb_forall in Hres.
  apply Forall_forall. intros r Hr.
  assert (Hmid : date r `mod` 24 = 0).
  { specialize (Hres (date r)). rewrite bool_decide_eq_true in Hres.
    apply Hres. apply list_elem_of_In, list_elem_of_fmap. eauto. }
  split; intros H; Z.div_mod_to_equations; lia.
Qed.

(** What the day lookup gives: the [KeyError] of a day without rows, the
    rows of the day as a frame, or the only row of the day on an index of
    day resolution. *)
Lemma loc_day_spec (day : Z) (df : DataFrame) :
  match loc_day day df with
  | inl e => e = KeyError day /\ hours_of_day df day = []
  | inr (Frame w) => w = hours_of_day df day
  | inr (Row row) =>
      is_day_resolution (date <$> df) = true /\ hours_of_day df day = [row]
  end.
Proof.
  unfold loc_day.
  destruct (is_day_resolution (date <$> df)) eqn:Hres.
  - unfold exact_lookup. rewrite (exact_filter day df Hres).
    destruct (hours_of_day df day) as [| r [| r' w]]; done.
  - destruct (partial_date_slice day df) as [e | w] eqn:Hp.
    + by apply partial_date_slice_inl.
    + by apply partial_date_slice_inr.
Qed.


(** A day without rows is refused on an index of day resolution, and when
    it lies wholly before or after a sorted series. *)
Lemma loc_day_refused (day : Z) (df : DataFrame) :
  (is_day_resolution (date <$> df) = true /\ hours_of_day df day = []) \/
  (is_monotonic_increasing (date <$> df) = true /\
   exists first final : Z,
     head (date <$> df) = Some first /\
     list.last (date <$> df) = Some final /\
     (24 * day + 23 < first \/ final < 24 * day)) ->
  hours_of_day df day = [] /\ loc_day day df = inl (KeyError day).
Proof.
  intros H.
  assert (Hnone : hours_of_day df day = []).
  { destruct H as [[_ H] | (Hmono & first & final & Hhead & Hlast & Hout)];
      [exact H | by eapply out_of_range_no_hours]. }
  split; [exact Hnone |]. unfold loc_day.
  destruct (is_day_resolution (date <$> df)) eqn:Hres.
  - unfold exact_lookup. by rewrite (exact_filter day df Hres), Hnone.
  - destruct H as [[H _] | (Hmono & first & final & Hhead & Hlast & Hout)];
      [discriminate |].
    unfold partial_date_slice, day_bounds.
    rewrite Hmono, Hhead, Hlast. by rewrite bool_decide_eq_true_2 by lia.
Qed.

(** ** [summarize_weather] *)

Lemma WeatherSummary_loop_refused (df : DataFrame) (day : Z) :
  loc_day day df = inl (KeyError day) ->
  forall (dates : list Z) (rows : list summary_row),
    day ∈ dates ->
    exists e, WeatherSummary_loop dates df rows = inl e /\
              (e = TypeError \/
               exists key, key ∈ dates /\ e = KeyError key /\
                           hours_of_day df key = []).
Proof.
  intros Hday.
  induction dates as [| d dates IH]; intros rows Hin.
  - by apply not_elem_of_nil in Hin.
  - simpl. pose proof (loc_day_spec d df) as Hd.
    destruct (loc_day d df) as [e | [w | row]] eqn:Hloc.
    + destruct Hd as [-> Hnone]. eexists. split; [reflexivity |].
      right. exists d. split; [by left | done].
    + apply elem_of_cons in Hin as [-> | Hin]; [congruence |].
      destruct (IH (rows ++ [summarize_day d w]) Hin) as (e & -> & He).
      exists e. split; [reflexivity |].
      destruct He as [-> | (key & Hkey & -> & Hnone)]; [by left |].
      right. exists key. split; [by right | done].
    + eexists. split; [reflexivity | by left].
Qed.

(** C4, as amended.  When a requested day has no hours because it lies
    wholly before the first or after the last hour of a non-empty weather
    series in time order, or in a series whose timestamps are all at
    midnight, [summarize_weather] raises and returns no row: requested
    alone the day gives its [KeyError]; among other days the exception is
    the [KeyError] of a requested day without hours, or the [TypeError] of
    a requested day before it. *)
Theorem summarize_weather_out_of_range
        (dates : list Z) (df : DataFrame) (day : Z) :
  day ∈ dates ->
  (is_day_resolution (date <$> df) = true /\ hours_of_day df day = []) \/
  (is_monotonic_increasing (date <$> df) = true /\
   exists first final : Z,
     head (date <$> df) = Some first /\
     list.last (date <$> df) = Some final /\
     (24 * day + 23 < first \/ final < 24 * day)) ->
  hours_of_day df day = [] /\
  summarize_weather [day] df = inl (KeyError day) /\
  exists e, summarize_weather dates df = inl e /\
            (e = TypeError \/
             exists key, key ∈ dates /\ e = KeyError key /\
                         hours_of_day df key = []).
Proof.
  intros Hin Hout. destruct (loc_day_refused day df Hout) as [Hnone Hloc].
  split; [exact Hnone |]. split.
  - unfold summarize_weather, WeatherSummary. simpl. by rewrite Hloc.
  - unfold summarize_weather, WeatherSummary.
    by apply (WeatherSummary_loop_refused df day).
Qed.

Lemma summarize_weather_out_of_range_witness :
  hours_of_day sample_day 5 = [] /\
  summarize_weather [5] sample_day = inl (KeyError 5) /\
  exists e, summarize_weather [0; 5] sample_day = inl e /\
            (e = TypeError \/
             exists key, key ∈ [0; 5] /\ e = KeyError key /\
                         hours_of_day sample_day key = []).
Proof.
  apply (summarize_weather_out_of_range [0; 5] sample_day 5).
  - right. apply list_elem_of_here.
  - right. split; [reflexivity |]. exists 0, 23.
    split; [reflexivity |]. split; [reflexivity |]. right. lia.
Defined.

(** C4, as stated, fails.  Day 1 has no hours in [sample_days_0_2] but
    lies inside the series: the lookup gives a frame without rows and the
    call returns a row of zeros with a NaN temperature.  Day 5 has no hours
    in [sample_day] and lies after the series: the call raises [KeyError],
    not [MissingDataError]. *)
Lemma summarize_weather_missing_day_counterexample :
  (hours_of_day sample_days_0_2 1 = [] /\
   summarize_weather [1] sample_days_0_2
   = inr [SummaryRow 1 (inject_Z 0) 0%Q 0%Q np.NaN 0]) /\
  (hours_of_day sample_day 5 = [] /\
   summarize_weather [5] sample_day = inl (KeyError 5) /\
   summarize_weather [5] sample_day <> inl MissingDataError).
Proof.
  split; [split; vm_compute; reflexivity |].
  split; [vm_compute; reflexivity |].
  split; [vm_compute; reflexivity |].
  vm_compute. discriminate.
Qed.

(** ** [summarize_rain] *)

Lemma zip3_rows (window : DataFrame) : forall events : list bool,
  zip3 (date <$> window) (precipitation <$> window) events
  = zip_with (fun row event => RainRow (date row) (precipitation row) event)
             window events.
Proof.
  unfold zip3. induction window as [| r window IH]; intros [| e events];
    try reflexivity.
  rewrite !fmap_cons. simpl. by rewrite IH.
Qed.

Lemma length_is_rain_event (df : DataFrame) (threshold : Q) (max_gap : Z) :
  length (is_rain_event df threshold max_gap) = length df.
Proof.
  unfold is_rain_event.
  by rewrite generic_facts.length_fill_gaps, !length_fmap.
Qed.









Lemma wet_period_prefix_witness :
  exists last_index : nat,
    second_period_wet two_period_window last_index /\
    (forall j : nat,
        second_period_wet two_period_window j -> (j <= last_index)%nat) /\
    compute_duration_and_temperature_wet_period two_period_window
    = (Z.of_nat (length (filter (fun b => b = true)
                                (take (S last_index)
                                      (wet_series two_period_window)))),
       Some (np.Finite
               (np.sum (take (S last_index) (temperature_2m <$> two_period_window))
                / inject_Z (Z.of_nat (S last_index)))%Q)).
Proof.
  apply (wet_period_prefix two_period_window 6).
  - vm_compute. reflexivity.
  - vm_compute. reflexivity.
Defined.

Lemma one_period_labels :
  (ndimage.label (generic.fill_gaps (wet_series one_period_window) 4)).1
  = replicate 8 1 ++ replicate 8 0.
Proof. vm_compute. reflexivity. Defined.

Lemma wet_period_absent_witness :
  compute_duration_and_temperature_wet_period one_period_window = (0, None).
Proof.
  apply (wet_period_absent one_period_window).
  intros i [Hlabel _]. rewrite one_period_labels in Hlabel.
  apply list_elem_of_lookup_2, elem_of_app in Hlabel as [H | H];
    apply elem_of_replicate_inv in H; discriminate H.
Defined.

End weather_facts.

(** * Further properties of [ascab/utils/generic.py] *)

Module generic_more.
Import generic generic_spec generic_facts.

(** ** [fill_gaps] *)

Lemma run_length_false_pos s i len :
  s !! i = Some false -> run_length s i len -> 1 <= len.
Proof.
  intros Hf [[Ht _] | (a & b & (Hab & _) & _ & ->)]; [congruence | lia].
Qed.

Lemma false_run_le_length s a b : false_run s a b -> (b <= length s)%nat.
Proof.
  intros (Hab & Hf & _). destruct b as [| p]; [lia |].
  specialize (Hf p ltac:(lia)). apply lookup_lt_Some in Hf. lia.
Qed.

Lemma run_length_le_length s i len :
  run_length s i len -> len <= Z.of_nat (length s).
Proof.
  intros [[_ ->] | (a & b & Hrun & _ & ->)]; [lia |].
  apply false_run_le_length in Hrun. lia.
Qed.

(** A run of [s] that is too long to be filled is a run of the result. *)
Lemma false_run_filled s g a b :
  0 <= g -> false_run s a b -> g < Z.of_nat b - Z.of_nat a ->
  false_run (fill_gaps s g) a b.
Proof.
  intros Hg Hrun Hlong. pose proof Hrun as (Hlt & Hf & Hl & Hr).
  split; [exact Hlt |]. split; [| split].
  - intros j Hj. rewrite (fill_gaps_on_run s g a b j Hrun Hj).
    by rewrite bool_decide_eq_false_2 by lia.
  - intros a' Ha'. rewrite (fill_gaps_on_true s g a' (Hl a' Ha')).
    by rewrite bool_decide_eq_true_2.
  - destruct (s !! b) as [[|] |] eqn:Hb.
    + rewrite (fill_gaps_on_true s g b Hb). by rewrite bool_decide_eq_true_2.
    + done.
    + rewrite lookup_ge_None_2; [done |].
      rewrite length_fill_gaps. by apply lookup_ge_None.
Qed.

(** The run lengths of a filled series. *)
Lemma run_length_filled s g i len :
  0 <= g -> run_length s i len ->
  run_length (fill_gaps s g) i (if bool_decide (len <= g) then 0 else len).
Proof.
  intros Hg Hlen. case_bool_decide as Hle.
  - left. split; [| reflexivity].
    destruct Hlen as [[Ht ->] | (a & b & Hrun & Hab & ->)].
    + rewrite (fill_gaps_on_true s g i Ht). by rewrite bool_decide_eq_true_2.
    + rewrite (fill_gaps_on_run s g a b i Hrun Hab).
      by rewrite bool_decide_eq_true_2.
  - destruct Hlen as [[_ ->] | (a & b & Hrun & Hab & ->)]; [lia |].
    right. exists a, b. split; [| done].
    apply false_run_filled; [done | done | lia].
Qed.

(** With [max_gap = 0] nothing is filled. *)
Theorem fill_gaps_zero (s : list bool) : fill_gaps s 0 = s.
Proof.
  apply list_eq. intros i.
  destruct (s !! i) as [x |] eqn:Hx.
  - destruct (fill_gaps_lookup s 0 i) as (len & Hlen & ->);
      [by eapply lookup_lt_Some |].
    f_equal. destruct x.
    + assert (run_length s i 0) as H0 by (by left).
      rewrite (run_length_unique _ _ _ _ Hlen H0). by apply bool_decide_eq_true_2.
    + pose proof (run_length_false_pos s i len Hx Hlen).
      apply bool_decide_eq_false_2. lia.
  - apply lookup_ge_None_2. rewrite length_fill_gaps. by apply lookup_ge_None.
Qed.

(** A [max_gap] of at least the length of the series fills everything. *)
Theorem fill_gaps_large_gap (s : list bool) (max_gap : Z) :
  Z.of_nat (length s) <= max_gap ->
  fill_gaps s max_gap = replicate (length s) true.
Proof.
  intros Hg. apply list_eq. intros i.
  destruct (decide (i < length s)%nat) as [Hi | Hi].
  - destruct (fill_gaps_lookup s max_gap i Hi) as (len & Hlen & ->).
    apply run_length_le_length in Hlen.
    rewrite bool_decide_eq_true_2 by lia.
    symmetry. by apply lookup_replicate_2.
  - rewrite !lookup_ge_None_2; [done | |].
    + rewrite length_replicate. lia.
    + rewrite length_fill_gaps. lia.
Qed.

Lemma fill_gaps_large_gap_witness :
  generic.fill_gaps [false; true; false; false; false] 5 = replicate 5 true.
Proof.
  apply (fill_gaps_large_gap [false; true; false; false; false] 5).
  simpl. lia.
Defined.

(** A larger [max_gap] fills at least as much. *)
Theorem fill_gaps_mono_gap (s : list bool) (g g' : Z) (i : nat) :
  g <= g' ->
  fill_gaps s g !! i = Some true -> fill_gaps s g' !! i = Some true.
Proof.
  intros Hgg Hi.
  assert (Hlt : (i < length s)%nat).
  { rewrite <- (length_fill_gaps s g). by eapply lookup_lt_Some. }
  destruct (fill_gaps_lookup s g i Hlt) as (len & Hlen & Hg).
  destruct (fill_gaps_lookup s g' i Hlt) as (len' & Hlen' & ->).
  rewrite (run_length_unique _ _ _ _ Hlen' Hlen).
  rewrite Hg in Hi. injection Hi as Hi. apply bool_decide_eq_true_1 in Hi.
  f_equal. apply bool_decide_eq_true_2. lia.
Qed.

Lemma fill_gaps_mono_gap_witness :
  generic.fill_gaps [true; false; false; true] 3 !! 1%nat = Some true.
Proof.
  apply (fill_gaps_mono_gap [true; false; false; true] 2 3 1).
  - lia.
  - reflexivity.
Defined.

Lemma fill_gaps_input_le (s s' : list bool) (g : Z) (i : nat) :
  0 <= g ->
  length s = length s' ->
  (forall j : nat, s !! j = Some true -> s' !! j = Some true) ->
  fill_gaps s g !! i = Some true -> fill_gaps s' g !! i = Some true.
Proof.
  intros Hg Hlen Hsub Hi.
  assert (Hlt : (i < length s)%nat).
  { rewrite <- (length_fill_gaps s g). by eapply lookup_lt_Some. }
  destruct (fill_gaps_lookup s g i Hlt) as (len & Hrun & Hfill).
  destruct (fill_gaps_lookup s' g i ltac:(lia)) as (len' & Hrun' & ->).
  rewrite Hfill in Hi. injection Hi as Hi. apply bool_decide_eq_true_1 in Hi.
  f_equal. apply bool_decide_eq_true_2.
  destruct Hrun' as [[_ ->] | (a' & b' & Hr' & Hab' & ->)]; [lia |].
  pose proof Hr' as (_ & Hf' & _ & _).
  destruct Hrun as [[Ht _] | (a & b & Hr & Hab & ->)].
  { specialize (Hsub i Ht). specialize (Hf' i Hab'). congruence. }
  destruct Hr as (_ & Hf & Hl & Hrt).
  assert (a <= a')%nat.
  { destruct (decide (a <= a')%nat) as [| Hn]; [done |].
    destruct a as [| p]; [lia |].
    specialize (Hsub p (Hl p eq_refl)). specialize (Hf' p ltac:(lia)).
    congruence. }
  assert (b' <= b)%nat.
  { destruct (decide (b' <= b)%nat) as [| Hn]; [done |].
    pose proof (Hf' b ltac:(lia)) as Hb.
    destruct (s !! b) as [[|] |] eqn:Hsb.
    - specialize (Hsub b Hsb). congruence.
    - done.
    - apply lookup_ge_None in Hsb. apply lookup_lt_Some in Hb. lia. }
  lia.
Qed.

(** More [True] entries in the input never give fewer in the output. *)
Theorem fill_gaps_mono_input (s s' : list bool) (g : Z) (i : nat) :
  0 <= g ->
  length s = length s' ->
  (forall j : nat, s !! j = Some true -> s' !! j = Some true) ->
  fill_gaps s g !! i = Some true -> fill_gaps s' g !! i = Some true.
Proof. apply fill_gaps_input_le. Qed.

Lemma fill_gaps_mono_input_witness :
  generic.fill_gaps [true; false; true; false; true] 1 !! 1%nat = Some true.
Proof.
  apply (fill_gaps_mono_input [true; false; true; false; false]
                              [true; false; true; false; true] 1 1).
  - lia.
  - reflexivity.
  - intros j Hj.
    destruct j as [| [| [| [| [| j]]]]]; simpl in *; congruence.
  - reflexivity.
Defined.

(** Filling twice, with any two non-negative gaps, is filling once with
    the larger one. *)
Theorem fill_gaps_twice (s : list bool) (g g' : Z) :
  0 <= g -> 0 <= g' ->
  fill_gaps (fill_gaps s g) g' = fill_gaps s (Z.max g g').
Proof.
  intros Hg Hg'. apply list_eq. intros i.
  destruct (decide (i < length s)%nat) as [Hi | Hi].
  2: { rewrite !lookup_ge_None_2; [done | |];
       rewrite ?length_fill_gaps; lia. }
  destruct (fill_gaps_lookup s (Z.max g g') i Hi) as (len & Hlen & ->).
  destruct (fill_gaps_lookup (fill_gaps s g) g' i) as (len' & Hlen' & ->);
    [by rewrite length_fill_gaps |].
  rewrite (run_length_unique _ _ _ _ Hlen' (run_length_filled s g i len Hg Hlen)).
  pose proof (run_length_nonneg s i len Hlen).
  f_equal. repeat case_bool_decide; lia.
Qed.

Lemma fill_gaps_twice_witness :
  generic.fill_gaps
    (generic.fill_gaps [true; false; true; false; false; false; true] 1) 3
  = generic.fill_gaps [true; false; true; false; false; false; true] (Z.max 1 3).
Proof. apply fill_gaps_twice; lia. Defined.

(** No short gap is left: for [max_gap >= 0] a maximal run of [False] of
    the result is longer than [max_gap], and it is a maximal run of the
    input. *)
Theorem fill_gaps_leaves_long_runs (s : list bool) (max_gap : Z) (a b : nat) :
  0 <= max_gap ->
  false_run (fill_gaps s max_gap) a b ->
  max_gap < Z.of_nat b - Z.of_nat a /\ false_run s a b.
Proof.
  intros Hg Hrun. pose proof Hrun as (Hab & Hf & _).
  assert (Ha : (a < length s)%nat).
  { rewrite <- (length_fill_gaps s max_gap).
    eapply lookup_lt_Some. apply (Hf a). lia. }
  destruct (fill_gaps_lookup s max_gap a Ha) as (len & Hlen & Hfill).
  rewrite (Hf a ltac:(lia)) in Hfill. injection Hfill as Hfill.
  symmetry in Hfill. apply bool_decide_eq_false_1 in Hfill.
  destruct Hlen as [[_ ->] | (a0 & b0 & Hrun0 & Hab0 & ->)]; [lia |].
  pose proof (false_run_filled s max_gap a0 b0 Hg Hrun0 ltac:(lia)) as Hrun1.
  destruct (false_run_unique _ _ _ _ _ a Hrun1 Hrun Hab0 ltac:(lia)) as [-> ->].
  split; [lia | exact Hrun0].
Qed.

Lemma fill_gaps_leaves_long_runs_witness :
  2 < Z.of_nat 4 - Z.of_nat 1 /\
  false_run [true; false; false; false; true; false] 1 4.
Proof.
  apply (fill_gaps_leaves_long_runs [true; false; false; false; true; false] 2 1 4).
  - lia.
  - split; [lia |]. split; [| split].
    + intros j Hj.
      assert (j = 1 \/ j = 2 \/ j = 3)%nat as [-> | [-> | ->]] by lia;
        reflexivity.
    + intros a' Ha'. assert (a' = 0%nat) as -> by lia. reflexivity.
    + vm_compute. congruence.
Defined.

(** In the loop the counter of the open run stays between 0 and the number
    of entries visited, so the start [i - current_length] of the slice
    assignment is never negative and is used as it is. *)
Theorem fill_gaps_loop_bounds (s : list bool) (k : nat) :
  (k <= length s)%nat ->
  let st := foldl (fill_gaps_body s) (GapsState (np.zeros_like s) 0) (seq 0 k) in
  0 <= current_length st <= Z.of_nat k /\
  length (false_series_lengths st) = length s /\
  np.slice_bound (Z.of_nat (length (false_series_lengths st)))
                 (Z.of_nat k - current_length st)
  = Z.of_nat k - current_length st.
Proof.
  intros Hk st.
  destruct (gaps_loop s k Hk) as (c & Hc & Hck & Hlen & _).
  fold st in Hc, Hlen. rewrite Hc, Hlen.
  split; [lia |]. split; [reflexivity |].
  unfold np.slice_bound. case_bool_decide; lia.
Qed.

Lemma fill_gaps_loop_bounds_witness :
  0 <= current_length
         (foldl (fill_gaps_body [true; false; false])
                (GapsState (np.zeros_like [true; false; false]) 0) (seq 0 3))
    <= Z.of_nat 3.
Proof.
  refine (proj1 (fill_gaps_loop_bounds [true; false; false] 3 _)).
  simpl. lia.
Defined.

(** *** A [True] entry separates what is before it from what is after it *)

Lemma false_run_app_l s1 s2 a b :
  false_run s1 a b -> false_run (s1 ++ true :: s2) a b.
Proof.
  intros Hrun. pose proof (false_run_le_length _ _ _ Hrun) as Hb.
  destruct Hrun as (Hab & Hf & Hl & Hr).
  split; [exact Hab |]. split; [| split].
  - intros j Hj. rewrite lookup_app_l by lia. by apply Hf.
  - intros a' Ha'. rewrite lookup_app_l by lia. by apply Hl.
  - destruct (decide (b = length s1)) as [-> | Hne].
    + rewrite lookup_app_r, Nat.sub_diag by lia. simpl. congruence.
    + rewrite lookup_app_l by lia. exact Hr.
Qed.

Lemma false_run_app_r s1 s2 a b :
  false_run s2 a b ->
  false_run (s1 ++ true :: s2) (S (length s1) + a) (S (length s1) + b).
Proof.
  intros (Hab & Hf & Hl & Hr).
  assert (Hshift : forall j : nat,
             (s1 ++ true :: s2) !! (S (length s1) + j)%nat = s2 !! j).
  { intros j. rewrite lookup_app_r by lia.
    replace (S (length s1) + j - length s1)%nat with (S j) by lia. done. }
  split; [lia |]. split; [| split].
  - intros j Hj.
    replace j with (S (length s1) + (j - S (length s1)))%nat by lia.
    rewrite Hshift. apply Hf. lia.
  - intros a' Ha'. destruct a as [| p].
    + assert (a' = length s1) as -> by lia.
      by rewrite lookup_app_r, Nat.sub_diag by lia.
    + replace a' with (S (length s1) + p)%nat by lia.
      rewrite Hshift. by apply Hl.
  - by rewrite Hshift.
Qed.

Lemma run_length_app_l s1 s2 i len :
  (i < length s1)%nat ->
  run_length s1 i len -> run_length (s1 ++ true :: s2) i len.
Proof.
  intros Hi [[Ht ->] | (a & b & Hrun & Hab & ->)].
  - left. by rewrite lookup_app_l.
  - right. exists a, b. split; [by apply false_run_app_l | done].
Qed.

Lemma run_length_app_r s1 s2 i len :
  run_length s2 i len ->
  run_length (s1 ++ true :: s2) (S (length s1) + i) len.
Proof.
  intros [[Ht ->] | (a & b & Hrun & Hab & ->)].
  - left. split; [| done]. rewrite lookup_app_r by lia.
    by replace (S (length s1) + i - length s1)%nat with (S i) by lia.
  - right. exists (S (length s1) + a)%nat, (S (length s1) + b)%nat.
    split; [by apply false_run_app_r |]. split; lia.
Qed.

(** The parts of a series before and after a [True] entry are filled
    independently of each other. *)
Theorem fill_gaps_split (s1 s2 : list bool) (max_gap : Z) :
  fill_gaps (s1 ++ true :: s2) max_gap
  = fill_gaps s1 max_gap ++ bool_decide (0 <= max_gap) :: fill_gaps s2 max_gap.
Proof.
  apply list_eq. intros i.
  destruct (decide (i < length s1)%nat) as [Hi | Hi].
  - rewrite lookup_app_l by (by rewrite length_fill_gaps).
    destruct (fill_gaps_lookup s1 max_gap i Hi) as (len & Hlen & ->).
    destruct (fill_gaps_lookup (s1 ++ true :: s2) max_gap i) as (len' & Hlen' & ->);
      [rewrite length_app; simpl; lia |].
    by rewrite (run_length_unique _ _ _ _ Hlen'
                  (run_length_app_l s1 s2 i len Hi Hlen)).
  - rewrite lookup_app_r by (rewrite length_fill_gaps; lia).
    rewrite length_fill_gaps.
    destruct (i - length s1)%nat as [| k] eqn:Hk.
    + assert (i = length s1) as -> by lia. simpl.
      apply fill_gaps_on_true. by rewrite lookup_app_r, Nat.sub_diag by lia.
    + assert (i = S (length s1) + k)%nat as -> by lia.
      change (fill_gaps (s1 ++ true :: s2) max_gap !! (S (length s1) + k)%nat
              = fill_gaps s2 max_gap !! k).
      destruct (decide (k < length s2)%nat) as [Hk2 | Hk2].
      * destruct (fill_gaps_lookup s2 max_gap k Hk2) as (len & Hlen & ->).
        destruct (fill_gaps_lookup (s1 ++ true :: s2) max_gap
                                   (S (length s1) + k)) as (len' & Hlen' & ->);
          [rewrite length_app; simpl; lia |].
        by rewrite (run_length_unique _ _ _ _ Hlen'
                      (run_length_app_r s1 s2 k len Hlen)).
      * rewrite !lookup_ge_None_2; [done | |].
        -- rewrite length_fill_gaps. lia.
        -- rewrite length_fill_gaps, length_app. simpl. lia.
Qed.

(** ** [items_since_last_true] *)

Lemma length_items_since_last_true s :
  length (items_since_last_true s) = length s.
Proof. destruct (since_inv_final s) as (H & _). exact H. Qed.

Lemma last_true_before_here s i :
  s !! i = Some true -> last_true_before s (S i) (Z.of_nat i).
Proof.
  intros Hi. split; [lia |]. split.
  - intros _. by rewrite Nat2Z.id.
  - intros m Hm. lia.
Qed.

Lemma last_true_before_step s i j :
  s !! i = Some false ->
  last_true_before s i j -> last_true_before s (S i) j.
Proof.
  intros Hi (Hr & Ht & Hf). split; [lia |]. split; [exact Ht |].
  intros m Hm. destruct (decide (m = i)) as [-> | Hne]; [exact Hi |].
  apply Hf. lia.
Qed.

(** An entry of the result lies between 0 and its position plus one. *)
Theorem items_since_last_true_bounds (s : list bool) (i : nat) (v : Z) :
  items_since_last_true s !! i = Some v -> 0 <= v <= Z.of_nat i + 1.
Proof.
  intros Hv.
  assert (Hi : (i < length s)%nat).
  { rewrite <- length_items_since_last_true. by eapply lookup_lt_Some. }
  destruct (since_lookup s i Hi) as (j & (Hr & _) & Hj).
  rewrite Hj in Hv. injection Hv as <-. lia.
Qed.

Lemma items_since_last_true_bounds_witness : 0 <= 2 <= Z.of_nat 1 + 1.
Proof.
  apply (items_since_last_true_bounds [false; false; true] 1 2).
  reflexivity.
Defined.

(** From one entry to the next the result goes back to 0 at a [True] and
    grows by one at a [False]. *)
Theorem items_since_last_true_next (s : list bool) (i : nat) (v : Z) (b : bool) :
  items_since_last_true s !! i = Some v ->
  s !! S i = Some b ->
  items_since_last_true s !! S i = Some (if b then 0 else v + 1).
Proof.
  intros Hv Hb.
  assert (Hi : (S i < length s)%nat) by (by eapply lookup_lt_Some).
  destruct (since_lookup s i ltac:(lia)) as (j & Hj & Hij).
  destruct (since_lookup s (S i) Hi) as (j' & Hj' & ->).
  rewrite Hij in Hv. injection Hv as <-. f_equal. destruct b.
  - rewrite (last_true_before_unique _ _ _ _ Hj' (last_true_before_here s _ Hb)).
    lia.
  - rewrite (last_true_before_unique _ _ _ _ Hj'
               (last_true_before_step s _ j Hb Hj)).
    lia.
Qed.

Lemma items_since_last_true_next_witness :
  generic.items_since_last_true [true; false; false; true] !! 2%nat
  = Some (if false then 0 else 1 + 1).
Proof.
  apply (items_since_last_true_next [true; false; false; true] 1 1 false);
    reflexivity.
Defined.

(** After a [True] entry the count starts afresh: the result for a series
    with a [True] at some position is the result for the part before it, a
    0, and the result for the part after it. *)
Theorem items_since_last_true_split (s1 s2 : list bool) :
  items_since_last_true (s1 ++ true :: s2)
  = items_since_last_true s1 ++ 0 :: items_since_last_true s2.
Proof.
  set (s := s1 ++ true :: s2).
  assert (Hsep : s !! length s1 = Some true).
  { unfold s. by rewrite lookup_app_r, Nat.sub_diag by lia. }
  apply list_eq. intros i.
  destruct (decide (i < length s1)%nat) as [Hi | Hi].
  - rewrite lookup_app_l by (by rewrite length_items_since_last_true).
    destruct (since_lookup s1 i Hi) as (j & (Hr & Ht & Hf) & ->).
    destruct (since_lookup s i) as (j' & Hj' & ->);
      [unfold s; rewrite length_app; simpl; lia |].
    assert (last_true_before s (S i) j) as Hj.
    { split; [lia |]. split.
      - intros H0. unfold s. rewrite lookup_app_l by lia. by apply Ht.
      - intros m Hm. unfold s. rewrite lookup_app_l by lia. by apply Hf. }
    by rewrite (last_true_before_unique _ _ _ _ Hj' Hj).
  - rewrite lookup_app_r by (rewrite length_items_since_last_true; lia).
    rewrite length_items_since_last_true.
    destruct (i - length s1)%nat as [| k] eqn:Hk.
    + assert (i = length s1) as -> by lia.
      destruct (since_lookup s (length s1)) as (j' & Hj' & ->);
        [unfold s; rewrite length_app; simpl; lia |].
      rewrite (last_true_before_unique _ _ _ _ Hj'
                 (last_true_before_here s _ Hsep)).
      simpl. f_equal. lia.
    + assert (i = S (length s1) + k)%nat as -> by lia.
      change (items_since_last_true s !! (S (length s1) + k)%nat
              = items_since_last_true s2 !! k).
      destruct (decide (k < length s2)%nat) as [Hk2 | Hk2].
      * destruct (since_lookup s2 k Hk2) as (j & (Hr & Ht & Hf) & ->).
        destruct (since_lookup s (S (length s1) + k)) as (j' & Hj' & ->);
          [unfold s; rewrite length_app; simpl; lia |].
        assert (Hshift : forall m : nat, s !! (S (length s1) + m)%nat = s2 !! m).
        { intros m. unfold s. rewrite lookup_app_r by lia.
          by replace (S (length s1) + m - length s1)%nat with (S m) by lia. }
        assert (last_true_before s (S (S (length s1) + k))
                                 (Z.of_nat (S (length s1)) + j)) as Hj.
        { split; [lia |]. split.
          - intros _. destruct (decide (j = -1)) as [-> | Hne].
            + replace (Z.to_nat (Z.of_nat (S (length s1)) + -1))
                with (length s1) by lia.
              exact Hsep.
            + replace (Z.to_nat (Z.of_nat (S (length s1)) + j))
                with (S (length s1) + Z.to_nat j)%nat by lia.
              rewrite Hshift. apply Ht. lia.
          - intros m Hm.
            replace m with (S (length s1) + (m - S (length s1)))%nat by lia.
            rewrite Hshift. apply Hf. lia. }
        rewrite (last_true_before_unique _ _ _ _ Hj' Hj). f_equal. lia.
      * rewrite !lookup_ge_None_2; [done | |].
        -- rewrite length_items_since_last_true. lia.
        -- rewrite length_items_since_last_true. unfold s.
           rewrite length_app. simpl. lia.
Qed.

(** ** [parse_date] *)

Lemma isdigit_of_uint (s : string) (d : Decimal.uint) :
  NilEmpty.uint_of_string s = Some d ->
  forallb py.is_digit (String.list_ascii_of_string s) = true.
Proof.
  revert d. induction s as [| c s IH]; intros d H; [reflexivity |].
  simpl in H. destruct (NilEmpty.uint_of_string s) as [d0 |]; [| discriminate].
  simpl. rewrite (IH d0 eq_refl), andb_true_r.
  apply uint_of_char_spec in H.
  destruct H as [[-> _] | [[-> _] | [[-> _] | [[-> _] | [[-> _] |
                [[-> _] | [[-> _] | [[-> _] | [[-> _] | [-> _]]]]]]]]]];
    reflexivity.
Qed.

Lemma to_uint_nonnil (n : N) : N.to_uint n <> Decimal.Nil.
Proof.
  destruct n as [| p]; [discriminate |]. apply Unsigned.to_uint_nonnil.
Qed.

Lemma uint_of_str_of_nonneg (n : Z) :
  NilZero.uint_of_string (py.str_of_nonneg n) = Some (N.to_uint (Z.to_N n)).
Proof. apply NilZero.usu, to_uint_nonnil. Qed.

Lemma isdigit_str_of_nonneg (n : Z) :
  py.str_isdigit (py.str_of_nonneg n) = true.
Proof.
  pose proof (uint_of_str_of_nonneg n) as H.
  unfold py.str_isdigit. destruct (py.str_of_nonneg n) as [| c s] eqn:Hs.
  - discriminate H.
  - by apply (isdigit_of_uint _ _ H).
Qed.

(** The decimal text of an integer [n >= 0] of at most 4300 digits is read
    back as [n]. *)
Theorem parse_date_of_number_text (n : Z) :
  0 <= n ->
  (String.length (py.str_of_nonneg n) <= py.int_max_str_digits)%nat ->
  parse_date (DateStr (py.str_of_nonneg n)) = inr (Some n).
Proof.
  intros Hn Hlen. unfold parse_date, py.int_of_str.
  rewrite isdigit_str_of_nonneg, uint_of_str_of_nonneg.
  destruct (Nat.ltb_spec py.int_max_str_digits
                         (String.length (py.str_of_nonneg n))); [lia |].
  do 2 f_equal. unfold Z.of_uint.
  change (Pos.of_uint (N.to_uint (Z.to_N n)))
    with (N.of_uint (N.to_uint (Z.to_N n))).
  rewrite DecimalN.Unsigned.of_to. lia.
Qed.

Lemma parse_date_of_number_text_witness :
  generic.parse_date (generic.DateStr (py.str_of_nonneg 69)) = inr (Some 69).
Proof.
  apply parse_date_of_number_text.
  - lia.
  - vm_compute. lia.
Defined.

Lemma days_in_month_bounds (k : nat) (n : Z) :
  datetime.days_in_month !! k = Some n ->
  28 <= n <= 31 /\
  0 <= datetime.sum_list (take k datetime.days_in_month) /\
  datetime.sum_list (take k datetime.days_in_month) + n <= 365.
Proof.
  revert n.
  do 12 (destruct k as [| k];
         [intros n [= <-]; unfold datetime.sum_list; simpl; lia |]).
  intros n H. simpl in H. discriminate H.
Qed.

Lemma yday_1900_range (month : nat) (day v : Z) :
  datetime.yday_1900 month day = inr v -> 1 <= v <= 365.
Proof.
  unfold datetime.yday_1900.
  destruct (datetime.days_in_month !! (month - 1)%nat) as [n |] eqn:Hn;
    [| discriminate].
  case_bool_decide as Hd; [| discriminate]. intros [= <-].
  apply days_in_month_bounds in Hn. lia.
Qed.

(** A text that is not digits and is accepted is a date, and its result is
    a day of a year that is not a leap year: between 1 and 365. *)
Theorem parse_date_text_range (s : string) (v : Z) :
  py.str_isdigit s = false ->
  parse_date (DateStr s) = inr (Some v) ->
  1 <= v <= 365.
Proof.
  intros Hd. unfold parse_date. rewrite Hd.
  destruct (datetime.strptime_B_d_yday s) as [e | yday] eqn:Hy; [discriminate |].
  intros [= <-]. unfold datetime.strptime_B_d_yday in Hy.
  destruct (datetime.match_month 1 datetime.month_names s)
    as [[month [| c rest]] |]; try discriminate.
  destruct (datetime.is_space c); [| discriminate].
  destruct (datetime.match_day (datetime.skip_spaces rest))
    as [[day [| ? ?]] |]; try discriminate.
  by eapply yday_1900_range.
Qed.

Lemma parse_date_text_range_witness : 1 <= 69 <= 365.
Proof.
  apply (parse_date_text_range "March 10" 69); reflexivity.
Defined.

Lemma all_date_texts_parsed :
  forallb (fun month => forallb (date_text_parsed month) (seq 1 31)) (seq 1 12)
  = true.
Proof. vm_compute. reflexivity. Qed.

Lemma date_text_parse (month : nat) (day n : Z) :
  datetime.days_in_month !! (month - 1)%nat = Some n ->
  (1 <= month)%nat -> 1 <= day <= n ->
  exists text, date_text month day = Some text /\
               parse_date (DateStr text) = inr (Some (day_of_year month day)).
Proof.
  intros Hn Hm Hd.
  assert (Hmonth : (month <= 12)%nat).
  { apply lookup_lt_Some in Hn. simpl in Hn. lia. }
  assert (Hn31 : n <= 31) by (apply days_in_month_bounds in Hn; lia).
  pose proof all_date_texts_parsed as Hall.
  rewrite forallb_forall in Hall.
  specialize (Hall month ltac:(apply in_seq; lia)).
  rewrite forallb_forall in Hall.
  specialize (Hall (Z.to_nat day) ltac:(apply in_seq; lia)).
  unfold date_text_parsed in Hall. rewrite Hn in Hall.
  rewrite Z2Nat.id in Hall by lia.
  rewrite bool_decide_eq_true_2 in Hall by lia.
  destruct (date_text month day) as [text |]; [| discriminate].
  exists text. split; [reflexivity |].
  destruct (parse_date (DateStr text)) as [e | [v |]]; try discriminate.
  apply bool_decide_eq_true_1 in Hall. by subst.
Qed.

(** The name of a month, a space and a day that the month has in a year
    that is not a leap year are read as the day of the year of that date. *)
Theorem parse_date_of_date_text (month : nat) (day n : Z) :
  datetime.days_in_month !! (month - 1)%nat = Some n ->
  (1 <= month)%nat -> 1 <= day <= n ->
  exists text, date_text month day = Some text /\
               parse_date (DateStr text) = inr (Some (day_of_year month day)).
Proof. apply date_text_parse. Qed.

Lemma parse_date_of_date_text_witness :
  exists text, date_text 3 10 = Some text /\
               generic.parse_date (generic.DateStr text)
               = inr (Some (day_of_year 3 10)).
Proof.
  apply (parse_date_of_date_text 3 10 31).
  - reflexivity.
  - lia.
  - lia.
Defined.

Lemma sum_list_snoc (l : list Z) (x : Z) :
  datetime.sum_list (l ++ [x]) = datetime.sum_list l + x.
Proof.
  unfold datetime.sum_list. induction l as [| y l IH]; simpl; [lia |].
  rewrite IH. lia.
Qed.

Lemma days_before_mono (k k' : nat) (n n' : Z) :
  datetime.days_in_month !! k = Some n ->
  datetime.days_in_month !! k' = Some n' ->
  (k < k')%nat ->
  datetime.sum_list (take k datetime.days_in_month) + n
  <= datetime.sum_list (take k' datetime.days_in_month).
Proof.
  revert k n n'. induction k' as [| k' IH]; intros k n n' Hn Hn' Hlt; [lia |].
  destruct (datetime.days_in_month !! k') as [m |] eqn:Hm.
  2: { apply lookup_ge_None in Hm. apply lookup_lt_Some in Hn'. lia. }
  rewrite (take_S_r _ _ _ Hm), sum_list_snoc.
  destruct (decide (k = k')) as [-> | Hne].
  - rewrite Hn in Hm. injection Hm as <-. lia.
  - pose proof (IH k n m Hn eq_refl ltac:(lia)).
    pose proof (days_in_month_bounds _ _ Hm). lia.
Qed.

Lemma day_of_year_mono (month month' : nat) (day day' n n' : Z) :
  datetime.days_in_month !! (month - 1)%nat = Some n ->
  datetime.days_in_month !! (month' - 1)%nat = Some n' ->
  (1 <= month)%nat -> 1 <= day <= n -> 1 <= day' <= n' ->
  (month < month')%nat \/ (month = month' /\ day < day') ->
  day_of_year month day < day_of_year month' day'.
Proof.
  intros Hn Hn' Hm Hd Hd' Hlt. unfold day_of_year.
  destruct Hlt as [Hlt | [<- Hlt]]; [| lia].
  pose proof (days_before_mono _ _ _ _ Hn Hn' ltac:(lia)). lia.
Qed.

(** A later date of the year is read as a larger number. *)
Theorem parse_date_order (month month' : nat) (day day' n n' : Z)
        (text text' : string) (v v' : Z) :
  datetime.days_in_month !! (month - 1)%nat = Some n ->
  datetime.days_in_month !! (month' - 1)%nat = Some n' ->
  (1 <= month)%nat -> 1 <= day <= n -> 1 <= day' <= n' ->
  (month < month')%nat \/ (month = month' /\ day < day') ->
  date_text month day = Some text ->
  date_text month' day' = Some text' ->
  parse_date (DateStr text) = inr (Some v) ->
  parse_date (DateStr text') = inr (Some v') ->
  v < v'.
Proof.
  intros Hn Hn' Hm Hd Hd' Hlt Ht Ht' Hv Hv'.
  destruct (date_text_parse month day n Hn Hm Hd) as (t & Ht1 & Hp).
  destruct (date_text_parse month' day' n' Hn') as (t' & Ht1' & Hp').
  { destruct Hlt as [? | [<- _]]; lia. }
  { exact Hd'. }
  rewrite Ht in Ht1. injection Ht1 as <-.
  rewrite Ht' in Ht1'. injection Ht1' as <-.
  rewrite Hv in Hp. injection Hp as ->.
  rewrite Hv' in Hp'. injection Hp' as ->.
  by eapply day_of_year_mono.
Qed.

Lemma parse_date_order_witness : 59 < 60.
Proof.
  apply (parse_date_order 2 3 28 1 28 31 "February 28" "March 1" 59 60);
    try reflexivity; try lia.
Defined.

End generic_more.

(** * Further properties of [ascab/utils/weather.py] *)

Module weather_more.
Import weather weather_spec weather_facts.
Import generic_spec generic_facts generic_more.

(** ** [summarize_weather] and [summarize_rain] *)

Lemma WeatherSummary_loop_inr (df : DataFrame) :
  forall (dates : list Z) (rows out : list summary_row),
    WeatherSummary_loop dates df rows = inr out ->
    out = rows ++ ((fun day => summarize_day day (hours_of_day df day)) <$> dates).
Proof.
  induction dates as [| d dates IH]; intros rows out H.
  - simpl in H. injection H as <-. by rewrite app_nil_r.
  - simpl in H. pose proof (loc_day_spec d df) as Hd.
    destruct (loc_day d df) as [e | [w | row]]; try discriminate.
    subst w. apply IH in H as ->.
    rewrite fmap_cons, <- app_assoc. reflexivity.
Qed.


Lemma summarize_rain_loop_inr (df : DataFrame) :
  forall (dates : list Z) (hourly_data out : list rain_row),
    summarize_rain_loop dates df hourly_data = inr out ->
    out = hourly_data ++ (dates ≫= rain_rows_of_day df).
Proof.
  induction dates as [| d dates IH]; intros hourly_data out H.
  - simpl in H. injection H as <-. by rewrite app_nil_r.
  - simpl in H. pose proof (loc_day_spec d df) as Hd.
    destruct (loc_day d df) as [e | [w | row]]; try discriminate.
    subst w. apply IH in H as ->.
    rewrite zip3_rows, <- app_assoc. reflexivity.
Qed.

Lemma loops_fail_alike (df : DataFrame) :
  forall (dates : list Z) (rows : list summary_row) (hourly_data : list rain_row),
    (forall e, WeatherSummary_loop dates df rows = inl e ->
               exists e', summarize_rain_loop dates df hourly_data = inl e' /\
                          same_failure e e') /\
    (forall e', summarize_rain_loop dates df hourly_data = inl e' ->
                exists e, WeatherSummary_loop dates df rows = inl e /\
                          same_failure e e').
Proof.
  induction dates as [| d dates IH]; intros rows hourly_data; simpl.
  - split; intros e H; discriminate H.
  - pose proof (loc_day_spec d df) as Hd.
    destruct (loc_day d df) as [e0 | [w | row]].
    + destruct Hd as [-> _].
      split; intros e [= <-]; eexists; (split; [reflexivity |]);
        left; eauto.
    + apply IH.
    + split; intros e [= <-]; eexists; (split; [reflexivity |]);
        by right.
Qed.

(** When [summarize_weather] returns, it returns one row for each
    requested day, in the order of [dates], computed from the hours of
    that day. *)
Theorem summarize_weather_rows (dates : list Z) (df : DataFrame)
        (rows : list summary_row) :
  summarize_weather dates df = inr rows ->
  rows = (fun day => summarize_day day (hours_of_day df day)) <$> dates /\
  Date <$> rows = dates /\
  length rows = length dates.
Proof.
  intros H. apply WeatherSummary_loop_inr in H. simpl in H. subst rows.
  split; [reflexivity |]. split.
  - rewrite <- list_fmap_compose. by rewrite <- (list_fmap_id dates) at 2.
  - by rewrite length_fmap.
Qed.

Lemma summarize_weather_rows_witness :
  Date <$> [summarize_day 0 (hours_of_day sample_days_0_2 0)] = [0].
Proof.
  refine (proj1 (proj2 (summarize_weather_rows [0] sample_days_0_2 _ _))).
  vm_compute. reflexivity.
Defined.



(** [summarize_weather] and [summarize_rain] fail on the same requests:
    with the same [KeyError], or with [TypeError] for the one and
    [AttributeError] for the other when the lookup of a requested day
    gives a single row. *)
Theorem summaries_fail_alike (dates : list Z) (df : DataFrame) :
  ((exists e, summarize_weather dates df = inl e)
   <-> (exists e', summarize_rain dates df = inl e')) /\
  (forall key, summarize_weather dates df = inl (KeyError key)
               <-> summarize_rain dates df = inl (KeyError key)) /\
  (summarize_weather dates df = inl TypeError
   <-> summarize_rain dates df = inl AttributeError).
Proof.
  destruct (loops_fail_alike df dates [] []) as [Hw Hr].
  unfold summarize_weather, WeatherSummary, summarize_rain.
  split; [| split].
  - split.
    + intros (e & He). destruct (Hw e He) as (e' & He' & _). eauto.
    + intros (e' & He'). destruct (Hr e' He') as (e & He & _). eauto.
  - intros key. split; intros H.
    + destruct (Hw _ H) as (e' & He' & [(k & [= <-] & ->) | [Hc _]]);
        [exact He' | discriminate Hc].
    + destruct (Hr _ H) as (e & He & [(k & -> & [= <-]) | [_ Hc]]);
        [exact He | discriminate Hc].
  - split; intros H.
    + destruct (Hw _ H) as (e' & He' & [(k & Hc & _) | [_ ->]]);
        [discriminate Hc | exact He'].
    + destruct (Hr _ H) as (e & He & [(k & _ & Hc) | [-> _]]);
        [discriminate Hc | exact He].
Qed.

(** When [summarize_rain] returns, its rows are the rows of the requested
    days, day after day in the order of [dates], and there is one row for
    each hour of each requested day. *)
Theorem summarize_rain_result (dates : list Z) (df : DataFrame)
        (rows : list rain_row) :
  summarize_rain dates df = inr rows ->
  rows = dates ≫= rain_rows_of_day df /\
  length rows
  = foldr (fun day n => (length (hours_of_day df day) + n)%nat) 0%nat dates.
Proof.
  intros H. apply summarize_rain_loop_inr in H. simpl in H. subst rows.
  split; [reflexivity |].
  induction dates as [| d dates IH]; [reflexivity |].
  rewrite bind_cons, length_app, IH. simpl. f_equal.
  unfold rain_rows_of_day. cbv zeta.
  rewrite length_zip_with, length_is_rain_event. lia.
Qed.

Lemma summarize_rain_result_witness :
  length ([2; 0] ≫= rain_rows_of_day sample_days_0_2)
  = foldr (fun day n => (length (hours_of_day sample_days_0_2 day) + n)%nat)
          0%nat [2; 0].
Proof.
  refine (proj2 (summarize_rain_result [2; 0] sample_days_0_2 _ _)).
  vm_compute. reflexivity.
Defined.

(** ** The columns of a daily summary row *)

Lemma sum_bool_bounds (a : list bool) :
  0 <= np.sum_bool a <= Z.of_nat (length a).
Proof.
  rewrite sum_bool_count.
  pose proof (length_filter (fun b : bool => b = true) a). lia.
Qed.

Lemma sum_nonneg (a : list Q) :
  Forall (fun q => (0 <= q)%Q) a -> (0 <= np.sum a)%Q.
Proof.
  induction 1 as [| q a Hq _ IH]; simpl; [apply Qle_refl |].
  change 0%Q with (0 + 0)%Q. by apply Qplus_le_compat.
Qed.

(** In every row that [summarize_weather] returns, the leaf wetness and
    the humid duration lie between 0 and the number of hours of the day,
    the rain flag is 0 or 1, and the precipitation is not negative when no
    hour of the series has negative precipitation. *)
Theorem summarize_weather_row_bounds (dates : list Z) (df : DataFrame)
        (rows : list summary_row) (row : summary_row) :
  summarize_weather dates df = inr rows ->
  row ∈ rows ->
  let hours := Z.of_nat (length (hours_of_day df (Date row))) in
  (exists wet : Z, LeafWetness row = inject_Z wet /\ 0 <= wet <= hours) /\
  (HasRain row = 0%Q \/ HasRain row = 1%Q) /\
  0 <= HumidDuration row <= hours /\
  (Forall (fun r => (0 <= precipitation r)%Q) df -> (0 <= Precipitation row)%Q).
Proof.
  intros H Hrow hours. apply WeatherSummary_loop_inr in H. simpl in H.
  subst rows. apply list_elem_of_fmap in Hrow as (day & -> & _).
  subst hours. simpl.
  set (w := hours_of_day df day).
  split; [| split; [| split]].
  - eexists. split; [reflexivity |].
    unfold compute_leaf_wetness_duration.
    pose proof (sum_bool_bounds (wet_series w)) as Hb.
    assert (Hl : length (wet_series w) = length w)
      by (unfold wet_series; apply length_fmap).
    rewrite Hl in Hb. exact Hb.
  - destruct (np.any _); [by right | by left].
  - pose proof (length_filter
                  (fun r => Qlt_bool (85 # 1) (relative_humidity_2m r)) w).
    lia.
  - intros Hall. apply sum_nonneg. apply Forall_fmap.
    apply Forall_forall. intros r Hr. unfold compose.
    rewrite Forall_forall in Hall. apply Hall.
    unfold w, hours_of_day in Hr. by apply list_elem_of_filter in Hr as [_ Hr].
Qed.

Lemma summarize_weather_row_bounds_witness :
  0 <= HumidDuration (summarize_day 0 (hours_of_day sample_day 0))
    <= Z.of_nat (length (hours_of_day sample_day
                           (Date (summarize_day 0 (hours_of_day sample_day 0))))).
Proof.
  refine (proj1 (proj2 (proj2
            (summarize_weather_row_bounds [0] sample_day _ _ _ _)))).
  - vm_compute. reflexivity.
  - apply list_elem_of_here.
Defined.

(** ** [is_rain_event] *)

Lemma any_lookup (a : list bool) :
  np.any a = true <-> exists i : nat, a !! i = Some true.
Proof.
  unfold np.any. rewrite existsb_exists. split.
  - intros (x & Hin & Hx). unfold id in Hx. subst x.
    apply list_elem_of_In, list_elem_of_lookup_1 in Hin. exact Hin.
  - intros (i & Hi). exists true. split; [| reflexivity].
    apply list_elem_of_In. by eapply list_elem_of_lookup_2.
Qed.

Lemma rain_lookup (df : DataFrame) (threshold : Q) (i : nat) :
  ((fun p => Qle_bool threshold p) <$> (precipitation <$> df)) !! i = Some true
  <-> exists row, df !! i = Some row /\ (threshold <= precipitation row)%Q.
Proof.
  rewrite !list_lookup_fmap. destruct (df !! i) as [row |]; simpl.
  - split.
    + intros [= H]. exists row. split; [done |]. by apply Qle_bool_iff.
    + intros (r & [= <-] & H). f_equal. by apply Qle_bool_iff.
  - split; [discriminate | intros (r & H & _); discriminate].
Qed.

(** A series without [True] is one run of [False]. *)
Lemma false_run_whole (s : list bool) (a b : nat) :
  (forall i : nat, s !! i <> Some true) ->
  false_run s a b -> a = 0%nat /\ b = length s.
Proof.
  intros Hnone Hrun. pose proof (false_run_le_length s a b Hrun) as Hb.
  destruct Hrun as (Hab & Hf & Hl & Hr). split.
  - destruct a as [| p]; [done |]. by destruct (Hnone p (Hl p eq_refl)).
  - destruct (s !! b) as [[|] |] eqn:Hsb.
    + by destruct (Hnone b).
    + done.
    + apply lookup_ge_None in Hsb. lia.
Qed.

(** For [max_gap >= 0] some hour of a window is flagged as rain event
    exactly when some hour has precipitation of at least the threshold, or
    the window is not empty and has at most [max_gap] hours (a window of
    only dry hours that is short enough is filled too). *)
Theorem rain_event_any (df : DataFrame) (threshold : Q) (max_gap : Z) :
  0 <= max_gap ->
  (np.any (is_rain_event df threshold max_gap) = true <->
   (exists row, row ∈ df /\ (threshold <= precipitation row)%Q) \/
   (df <> [] /\ Z.of_nat (length df) <= max_gap)).
Proof.
  intros Hg. unfold is_rain_event. cbv zeta.
  set (rain := (fun p => Qle_bool threshold p) <$> (precipitation <$> df)).
  assert (Hlen : length rain = length df).
  { unfold rain. by rewrite !length_fmap. }
  rewrite any_lookup. split.
  - intros (i & Hi).
    destruct (np.any rain) eqn:Hany.
    + left. apply any_lookup in Hany as (k & Hk).
      apply rain_lookup in Hk as (row & Hrow & Hp).
      exists row. split; [by eapply list_elem_of_lookup_2 | done].
    + right.
      assert (Hnone : forall k : nat, rain !! k <> Some true).
      { intros k Hk. assert (np.any rain = true) by (apply any_lookup; eauto).
        congruence. }
      assert (Hlt : (i < length rain)%nat).
      { rewrite <- (length_fill_gaps rain max_gap). by eapply lookup_lt_Some. }
      destruct (fill_gaps_lookup rain max_gap i Hlt) as (len & Hrun & Hfill).
      rewrite Hfill in Hi. injection Hi as Hi. apply bool_decide_eq_true_1 in Hi.
      destruct Hrun as [[Ht _] | (a & b & Hrun & Hab & ->)];
        [by destruct (Hnone i) |].
      destruct (false_run_whole rain a b Hnone Hrun) as [-> ->].
      split; [| lia]. intros ->. simpl in Hlt. lia.
  - intros [(row & Hin & Hp) | [Hne Hshort]].
    + apply list_elem_of_lookup_1 in Hin as (i & Hi). exists i.
      rewrite (fill_gaps_on_true rain max_gap i).
      * by rewrite bool_decide_eq_true_2.
      * apply rain_lookup. eauto.
    + exists 0%nat.
      destruct (fill_gaps_lookup rain max_gap 0) as (len & Hrun & ->).
      { rewrite Hlen. destruct df; [done | simpl; lia]. }
      apply run_length_le_length in Hrun.
      by rewrite bool_decide_eq_true_2 by lia.
Qed.

Lemma rain_event_any_witness :
  np.any (is_rain_event rain_day (2 # 10) 2) = true.
Proof.
  apply (proj2 (rain_event_any rain_day (2 # 10) 2 ltac:(lia))).
  left. exists (Observation 2 (3 # 10) 1%Q 10%Q 50%Q).
  split; [| vm_compute; discriminate].
  vm_compute. right. right. left.
Defined.

(** A lower threshold never removes an hour from the rain events. *)
Theorem rain_event_threshold (df : DataFrame) (threshold threshold' : Q)
        (max_gap : Z) (i : nat) :
  0 <= max_gap ->
  (threshold <= threshold')%Q ->
  is_rain_event df threshold' max_gap !! i = Some true ->
  is_rain_event df threshold max_gap !! i = Some true.
Proof.
  intros Hg Hth. unfold is_rain_event. cbv zeta.
  apply fill_gaps_input_le; [done | by rewrite !length_fmap |].
  intros j Hj. apply rain_lookup in Hj as (row & Hrow & Hp).
  apply rain_lookup. exists row. split; [done |].
  by eapply Qle_trans.
Qed.

Lemma rain_event_threshold_witness :
  is_rain_event rain_day (2 # 10) 2 !! 3%nat = Some true.
Proof.
  apply (rain_event_threshold rain_day (2 # 10) (3 # 10) 2 3).
  - lia.
  - vm_compute. discriminate.
  - vm_compute. reflexivity.
Defined.

(** ** [compute_duration_and_temperature_wet_period] *)

Lemma sum_bool_take_le (a : list bool) : forall k : nat,
  np.sum_bool (take k a) <= np.sum_bool a.
Proof.
  induction a as [| b a IH]; intros [| k]; simpl; try lia.
  - pose proof (sum_bool_bounds a). destruct b; lia.
  - specialize (IH k). lia.
Qed.

Lemma sum_bool_take_pos (a : list bool) : forall i : nat,
  a !! i = Some true -> 1 <= np.sum_bool (take (S i) a).
Proof.
  induction a as [| b a IH]; intros [| i] Hi; try discriminate.
  - simpl in Hi. injection Hi as ->.
    pose proof (sum_bool_bounds (take 0 a)). simpl in *. lia.
  - simpl in Hi. specialize (IH i Hi).
    change (take (S (S i)) (b :: a)) with (b :: take (S i) a).
    simpl. destruct b; lia.
Qed.

Lemma label_from_inside (n : nat) (num : Z) :
  ndimage.label_from true num (replicate n true) = (replicate n num, num).
Proof.
  induction n as [| n IH]; [reflexivity |].
  simpl. by rewrite IH.
Qed.

Lemma label_all_true (n : nat) :
  (ndimage.label (replicate n true)).1 = replicate n 1.
Proof.
  destruct n as [| n]; [reflexivity |].
  unfold ndimage.label. simpl. by rewrite label_from_inside.
Qed.

(** A temperature is returned exactly when the number of wet hours is not
    0, and the wet hours are at most the leaf wetness duration of the same
    window. *)
Theorem wet_period_result_shape (df : DataFrame) :
  let result := compute_duration_and_temperature_wet_period df in
  0 <= result.1 <= compute_leaf_wetness_duration df /\
  (result.2 = None <-> result.1 = 0).
Proof.
  destruct (compute_cases df) as [(l & [_ Hl] & _ & ->) | [_ ->]]; simpl.
  - pose proof (sum_bool_take_pos _ _ Hl).
    pose proof (sum_bool_take_le (wet_series df) (S l)).
    unfold compute_leaf_wetness_duration.
    split; [lia |]. split; [discriminate | lia].
  - pose proof (sum_bool_bounds (wet_series df)).
    unfold compute_leaf_wetness_duration.
    split; [lia | done].
Qed.

(** Without a dry spell of more than 4 hours there is no second wet
    period: when every maximal run of dry hours has at most 4 hours, a
    spell of exactly 4 hours included, the result is 0 hours and no
    temperature. *)
Theorem wet_period_needs_long_gap (df : DataFrame) :
  (forall a b : nat, false_run (wet_series df) a b ->
                     Z.of_nat b - Z.of_nat a <= 4) ->
  compute_duration_and_temperature_wet_period df = (0, None).
Proof.
  intros Hshort.
  assert (Hfill : generic.fill_gaps (wet_series df) 4
                  = replicate (length (wet_series df)) true).
  { apply list_eq. intros i.
    destruct (decide (i < length (wet_series df))%nat) as [Hi | Hi].
    - destruct (fill_gaps_lookup (wet_series df) 4 i Hi) as (len & Hrun & ->).
      rewrite lookup_replicate_2 by done. f_equal.
      apply bool_decide_eq_true_2.
      destruct Hrun as [[_ ->] | (a & b & Hrun & _ & ->)]; [lia |].
      by apply Hshort.
    - rewrite !lookup_ge_None_2; [done | |].
      + rewrite length_replicate. lia.
      + rewrite length_fill_gaps. lia. }
  destruct (compute_cases df) as [(l & [Hl _] & _) | [_ ->]]; [| reflexivity].
  exfalso. unfold wet_labels in Hl. rewrite Hfill, label_all_true in Hl.
  apply lookup_replicate_1 in Hl as [Hl _]. discriminate Hl.
Qed.

Lemma short_gap_wet :
  wet_series short_gap_window = [true; false; false; false; false; true].
Proof. vm_compute. reflexivity. Defined.

Lemma wet_period_needs_long_gap_witness :
  compute_duration_and_temperature_wet_period short_gap_window = (0, None).
Proof.
  apply (wet_period_needs_long_gap short_gap_window).
  intros a b Hrun. pose proof (false_run_le_length _ _ _ Hrun) as Hb.
  destruct Hrun as (Hab & Hf & _).
  rewrite short_gap_wet in Hf, Hb. simpl in Hb.
  assert (b <= 5)%nat.
  { destruct (decide (b <= 5)%nat) as [| Hn]; [done |].
    specialize (Hf 5%nat ltac:(lia)). discriminate Hf. }
  assert (1 <= a)%nat.
  { destruct a as [| a]; [| lia]. specialize (Hf 0%nat ltac:(lia)).
    discriminate Hf. }
  lia.
Defined.

(** *** When a second wet period is found *)

Lemma label_from_false_cons (inside : bool) (num : Z) (l : list bool) :
  (ndimage.label_from inside num (false :: l)).1
  = 0 :: (ndimage.label_from false num l).1.
Proof. simpl. by destruct (ndimage.label_from false num l). Qed.

Lemma label_from_true_inside (num : Z) (l : list bool) :
  (ndimage.label_from true num (true :: l)).1
  = num :: (ndimage.label_from true num l).1.
Proof. simpl. by destruct (ndimage.label_from true num l). Qed.

Lemma label_from_true_outside (num : Z) (l : list bool) :
  (ndimage.label_from false num (true :: l)).1
  = (num + 1) :: (ndimage.label_from true (num + 1) l).1.
Proof. simpl. by destruct (ndimage.label_from true (num + 1) l). Qed.

Lemma label_from_falses (inside : bool) (num : Z) (k : nat) (l : list bool) :
  (ndimage.label_from inside num (replicate (S k) false ++ l)).1
  = replicate (S k) 0 ++ (ndimage.label_from false num l).1.
Proof.
  revert inside. induction k as [| k IH]; intros inside.
  - apply label_from_false_cons.
  - change (replicate (S (S k)) false ++ l)
      with (false :: (replicate (S k) false ++ l)).
    rewrite label_from_false_cons, IH. reflexivity.
Qed.

Lemma label_from_trues (num : Z) (k : nat) (l : list bool) :
  (ndimage.label_from true num (replicate k true ++ l)).1
  = replicate k num ++ (ndimage.label_from true num l).1.
Proof.
  induction k as [| k IH]; [reflexivity |].
  change (replicate (S k) true ++ l) with (true :: (replicate k true ++ l)).
  rewrite label_from_true_inside, IH. reflexivity.
Qed.

(** Where the series starts. *)
Lemma label_leading_falses (num : Z) (k : nat) (l : list bool) :
  (ndimage.label_from false num (replicate k false ++ l)).1
  = replicate k 0 ++ (ndimage.label_from false num l).1.
Proof.
  destruct k as [| k]; [reflexivity | apply label_from_falses].
Qed.

Lemma first_true (l : list bool) : forall r : nat,
  l !! r = Some true ->
  exists (k : nat) (rest : list bool),
    l = replicate k false ++ true :: rest /\ (k <= r)%nat.
Proof.
  induction l as [| b l IH]; intros r Hr; [discriminate |].
  destruct b.
  - exists 0%nat, l. split; [reflexivity | lia].
  - destruct r as [| r]; [discriminate |].
    destruct (IH r Hr) as (k & rest & -> & Hk).
    exists (S k), rest. split; [reflexivity | lia].
Qed.

Lemma first_false (l : list bool) : forall r : nat,
  l !! r = Some false ->
  exists (k : nat) (rest : list bool),
    l = replicate k true ++ false :: rest /\ (k <= r)%nat.
Proof.
  induction l as [| b l IH]; intros r Hr; [discriminate |].
  destruct b.
  - destruct r as [| r]; [discriminate |].
    destruct (IH r Hr) as (k & rest & -> & Hk).
    exists (S k), rest. split; [reflexivity | lia].
  - exists 0%nat, l. split; [reflexivity | lia].
Qed.

(** A [True], later a [False] and later a [True] again: the series has a
    second run of [True], and its first entry gets label 2. *)
Lemma label_second_run (f : list bool) (p q r : nat) :
  (p < q < r)%nat ->
  f !! p = Some true -> f !! q = Some false -> f !! r = Some true ->
  exists j : nat,
    (0 < j)%nat /\ (ndimage.label f).1 !! j = Some 2 /\
    f !! j = Some true /\ f !! (j - 1)%nat = Some false.
Proof.
  intros Hpqr Hp Hq Hr.
  destruct (first_true f p Hp) as (k1 & f1 & -> & Hk1).
  rewrite lookup_app_r in Hq by (rewrite length_replicate; lia).
  rewrite length_replicate in Hq.
  destruct (q - k1)%nat as [| q1] eqn:Hq1; [lia |]. simpl in Hq.
  destruct (first_false f1 q1 Hq) as (k2 & f2 & -> & Hk2).
  rewrite lookup_app_r in Hr by (rewrite length_replicate; lia).
  rewrite length_replicate in Hr.
  destruct (r - k1)%nat as [| r1] eqn:Hr1; [lia |]. simpl in Hr.
  rewrite lookup_app_r in Hr by (rewrite length_replicate; lia).
  rewrite length_replicate in Hr.
  destruct (r1 - k2)%nat as [| r2] eqn:Hr2; [lia |]. simpl in Hr.
  destruct (first_true f2 r2 Hr) as (k3 & f3 & -> & Hk3).
  exists (k1 + S (k2 + S k3))%nat.
  split; [lia |]. split; [| split].
  - unfold ndimage.label.
    rewrite label_leading_falses, label_from_true_outside, label_from_trues.
    change (false :: replicate k3 false ++ true :: f3)
      with (replicate (S k3) false ++ true :: f3).
    rewrite label_from_falses, label_from_true_outside.
    rewrite lookup_app_r by (rewrite length_replicate; lia).
    rewrite length_replicate.
    replace (k1 + S (k2 + S k3) - k1)%nat with (S (k2 + S k3)) by lia.
    simpl. rewrite lookup_app_r by (rewrite length_replicate; lia).
    rewrite length_replicate.
    replace (k2 + S k3 - k2)%nat with (S k3) by lia.
    simpl. rewrite lookup_app_r by (rewrite length_replicate; lia).
    rewrite length_replicate, Nat.sub_diag. reflexivity.
  - rewrite lookup_app_r by (rewrite length_replicate; lia).
    rewrite length_replicate.
    replace (k1 + S (k2 + S k3) - k1)%nat with (S (k2 + S k3)) by lia.
    simpl. rewrite lookup_app_r by (rewrite length_replicate; lia).
    rewrite length_replicate.
    replace (k2 + S k3 - k2)%nat with (S k3) by lia.
    simpl. rewrite lookup_app_r by (rewrite length_replicate; lia).
    by rewrite length_replicate, Nat.sub_diag.
  - rewrite lookup_app_r by (rewrite length_replicate; lia).
    rewrite length_replicate.
    replace (k1 + S (k2 + S k3) - 1 - k1)%nat with (S (k2 + k3)) by lia.
    simpl. rewrite lookup_app_r by (rewrite length_replicate; lia).
    rewrite length_replicate.
    replace (k2 + k3 - k2)%nat with k3 by lia.
    change (false :: replicate k3 false ++ true :: f3)
      with (replicate (S k3) false ++ true :: f3).
    rewrite lookup_app_l by (rewrite length_replicate; lia).
    apply lookup_replicate_2. lia.
Qed.

Lemma label_inside_gt (input : list bool) : forall (num k : Z) (l : nat),
  0 <= num ->
  (ndimage.label_from true num input).1 !! l = Some k -> num < k ->
  exists q : nat, (q < l)%nat /\ input !! q = Some false.
Proof.
  induction input as [| b input IH]; intros num k l Hnum Hl Hk;
    [discriminate |].
  destruct b.
  - rewrite label_from_true_inside in Hl. destruct l as [| l].
    + simpl in Hl. injection Hl as <-. lia.
    + destruct (IH num k l Hnum Hl Hk) as (q & Hq & Hf).
      exists (S q). split; [lia | exact Hf].
  - rewrite label_from_false_cons in Hl. destruct l as [| l].
    + simpl in Hl. injection Hl as <-. lia.
    + exists 0%nat. split; [lia | reflexivity].
Qed.

Lemma label_outside_gt (input : list bool) : forall (num k : Z) (l : nat),
  0 <= num ->
  (ndimage.label_from false num input).1 !! l = Some k -> num + 1 < k ->
  exists p q : nat, (p < q < l)%nat /\
                    input !! p = Some true /\ input !! q = Some false.
Proof.
  induction input as [| b input IH]; intros num k l Hnum Hl Hk;
    [discriminate |].
  destruct b.
  - rewrite label_from_true_outside in Hl. destruct l as [| l].
    + simpl in Hl. injection Hl as <-. lia.
    + destruct (label_inside_gt input (num + 1) k l ltac:(lia) Hl Hk)
        as (q & Hq & Hf).
      exists 0%nat, (S q). split; [lia |]. split; [reflexivity | exact Hf].
  - rewrite label_from_false_cons in Hl. destruct l as [| l].
    + simpl in Hl. injection Hl as <-. lia.
    + destruct (IH num k l Hnum Hl Hk) as (p & q & Hpq & Ht & Hf).
      exists (S p), (S q). split; [lia |]. split; [exact Ht | exact Hf].
Qed.

(** A temperature is returned exactly when the window has a dry spell of
    more than 4 hours with a wet hour before it and a wet hour after it. *)
Theorem wet_period_found_iff (df : DataFrame) :
  (compute_duration_and_temperature_wet_period df).2 <> None <->
  exists a b : nat,
    false_run (wet_series df) a b /\ 4 < Z.of_nat b - Z.of_nat a /\
    (0 < a)%nat /\ (b < length (wet_series df))%nat.
Proof.
  set (s := wet_series df). set (f := generic.fill_gaps s 4).
  assert (Hfound : (compute_duration_and_temperature_wet_period df).2 <> None
                   <-> exists l : nat, second_period_wet df l).
  { destruct (compute_cases df) as [(l & Hl & _ & ->) | [Hnone ->]]; simpl.
    - split; [eauto | discriminate].
    - split; [done |]. intros (l & Hl). by destruct (Hnone l). }
  rewrite Hfound. unfold second_period_wet, wet_labels. fold s. fold f.
  split.
  - intros (l & Hlabel & Hwet).
    destruct (label_outside_gt f 0 2 l ltac:(lia) Hlabel ltac:(lia))
      as (p & q & Hpq & Hp & Hq).
    assert (Hfl : f !! l = Some true).
    { unfold f. rewrite (fill_gaps_on_true s 4 l Hwet).
      by rewrite bool_decide_eq_true_2. }
    assert (Hqlt : (q < length s)%nat).
    { rewrite <- (length_fill_gaps s 4). by eapply lookup_lt_Some. }
    destruct (fill_gaps_lookup s 4 q Hqlt) as (len & Hrun & Hfq).
    fold f in Hfq. rewrite Hq in Hfq. injection Hfq as Hfq.
    symmetry in Hfq. apply bool_decide_eq_false_1 in Hfq.
    destruct Hrun as [[_ ->] | (a & b & Hrun & Hab & ->)]; [lia |].
    exists a, b. split; [exact Hrun |]. split; [lia |]. split.
    + destruct (decide (0 < a)%nat) as [| Hn]; [done |].
      pose proof (fill_gaps_on_run s 4 a b p Hrun ltac:(lia)) as Hfp.
      fold f in Hfp. rewrite Hp in Hfp. injection Hfp as Hfp.
      symmetry in Hfp. apply bool_decide_eq_true_1 in Hfp. lia.
    + destruct (decide (b < length s)%nat) as [| Hn]; [done |].
      pose proof (lookup_lt_Some _ _ _ Hwet).
      pose proof (fill_gaps_on_run s 4 a b l Hrun ltac:(lia)) as Hfl'.
      fold f in Hfl'. rewrite Hfl in Hfl'. injection Hfl' as Hfl'.
      symmetry in Hfl'. apply bool_decide_eq_true_1 in Hfl'. lia.
  - intros (a & b & Hrun & Hlong & Ha & Hb).
    pose proof Hrun as (Hab & Hf & Hl & Hr).
    destruct a as [| a']; [lia |].
    assert (Hfa' : f !! a' = Some true).
    { unfold f. rewrite (fill_gaps_on_true s 4 a' (Hl a' eq_refl)).
      by rewrite bool_decide_eq_true_2. }
    assert (Hfa : f !! S a' = Some false).
    { unfold f. rewrite (fill_gaps_on_run s 4 (S a') b (S a') Hrun) by lia.
      by rewrite bool_decide_eq_false_2 by lia. }
    assert (Hfb : f !! b = Some true).
    { destruct (s !! b) as [[|] |] eqn:Hsb.
      - unfold f. rewrite (fill_gaps_on_true s 4 b Hsb).
        by rewrite bool_decide_eq_true_2.
      - done.
      - apply lookup_ge_None in Hsb. lia. }
    destruct (label_second_run f a' (S a') b ltac:(lia) Hfa' Hfa Hfb)
      as (j & Hj & Hlabel & Hfj & Hfj1).
    exists j. split; [exact Hlabel |].
    assert (Hjlt : (j < length s)%nat).
    { rewrite <- (length_fill_gaps s 4). by eapply lookup_lt_Some. }
    destruct (s !! j) as [[|] |] eqn:Hsj; [done | | by apply lookup_ge_None in Hsj; lia].
    exfalso.
    destruct (fill_gaps_lookup s 4 j Hjlt) as (len & Hrunj & Hfill).
    fold f in Hfill. rewrite Hfj in Hfill. injection Hfill as Hfill.
    symmetry in Hfill. apply bool_decide_eq_true_1 in Hfill.
    destruct Hrunj as [[Ht _] | (a0 & b0 & Hrun0 & Hab0 & ->)]; [congruence |].
    destruct (decide (a0 = j)) as [-> | Hne].
    + destruct Hrun0 as (_ & _ & Hl0 & _).
      destruct j as [| j']; [lia |].
      pose proof (fill_gaps_on_true s 4 j' (Hl0 j' eq_refl)) as Hc.
      fold f in Hc. replace (S j' - 1)%nat with j' in Hfj1 by lia.
      rewrite bool_decide_eq_true_2 in Hc by lia. congruence.
    + pose proof (fill_gaps_on_run s 4 a0 b0 (j - 1) Hrun0 ltac:(lia)) as Hc.
      fold f in Hc. rewrite bool_decide_eq_true_2 in Hc by lia. congruence.
Qed.

End weather_more.
